(** * scrape_cesnetl.py: the incremental crawl of the CESNET-L archive

    A shallow embedding of [scrape_cesnetl.py].  The script is one
    module-level program; its phases are embedded as functions of a
    state-and-exception monad over the names the script mutates
    ([data_compilation], [url], the web driver's current page, ...).

    Strings are byte strings ([String.string]); [str.lower] is therefore
    the ASCII lowering, which is what the script's keyword tests see on
    ASCII anchor texts.  Everything the script obtains from the outside
    (the browser, BeautifulSoup's parse, the clock, and the helpers of
    [shared_scripts] whose result is only passed along) is a parameter
    of the [Script] section. *)

From Stdlib Require Import List String Ascii Bool Arith ZArith Lia.
From Stdlib Require Import DecimalString.
Import ListNotations.
Open Scope string_scope.
Open Scope list_scope.

(** ** Python strings *)

Module PyStr.

Definition lower_ascii (c : ascii) : ascii :=
  let n := nat_of_ascii c in
  if Nat.leb 65 n && Nat.leb n 90 then ascii_of_nat (n + 32) else c.

(** [str.lower()] *)
Fixpoint lower (s : string) : string :=
  match s with
  | EmptyString => EmptyString
  | String c s' => String (lower_ascii c) (lower s')
  end.

(** [s.startswith(p)] *)
Fixpoint startswith (p s : string) : bool :=
  match p, s with
  | EmptyString, _ => true
  | String _ _, EmptyString => false
  | String a p', String b s' => Ascii.eqb a b && startswith p' s'
  end.

(** [p in s] on strings: [p] occurs in [s] as a contiguous substring. *)
Fixpoint in_str (p s : string) : bool :=
  startswith p s ||
  match s with
  | EmptyString => false
  | String _ s' => in_str p s'
  end.

(** The logical reading of [p in s]. *)
Definition Substring (p s : string) : Prop :=
  exists pre post, s = (pre ++ p ++ post)%string.

(** Truthiness of a string: the empty string is falsy. *)
Definition truthy (s : string) : bool :=
  match s with EmptyString => false | _ => true end.

End PyStr.

(** ** The functions of the script that filter anchors *)

(** The anchors BeautifulSoup hands over: the [href] attribute when the
    tag has one, and [tag.string], which is [None] when the tag has no
    single string child. *)
Record anchor := mkAnchor { a_href : option string; a_string : option string }.

(** The parsed page, as far as the script looks at it: the texts of the
    [h2] elements and the anchors, both in document order. *)
Record soup := mkSoup { h2_texts : list string; anchors : list anchor }.

(** [text and (...)]: the truthiness of the value returned. *)
Definition contains_posting (text : option string) : bool :=
  match text with
  | None => false
  | Some t =>
      PyStr.truthy t &&
      (PyStr.in_str "faculty" (PyStr.lower t) || PyStr.in_str "professor" (PyStr.lower t)
       || PyStr.in_str "position" (PyStr.lower t) || PyStr.in_str "instructor" (PyStr.lower t))
  end.

Definition contains_plain_text (text : option string) : bool :=
  match text with
  | None => false
  | Some t => PyStr.truthy t && PyStr.in_str "text/plain" (PyStr.lower t)
  end.

Definition contains_html (text : option string) : bool :=
  match text with
  | None => false
  | Some t => PyStr.truthy t && PyStr.in_str "text/html" (PyStr.lower t)
  end.

Definition login_text : string :=
  ("Please enter your email address and your LISTSERV password and click on the " ++
   String (ascii_of_nat 34) "Log In" ++ String (ascii_of_nat 34) " button.")%string.

Definition check_login_required (source_code : string) : bool :=
  PyStr.in_str login_text source_code.

(** [soup.find_all('a', href=True, string=f)]: the anchors that have an
    [href] and whose [.string] passes [f], in document order. *)
Definition find_all_a (f : option string -> bool) (s : soup) : list anchor :=
  filter (fun a => match a_href a with Some _ => f (a_string a) | None => false end)
         (anchors s).

(** [soup.find('a', href=True, string=f)]: the first such anchor, or [None]. *)
Definition find_a (f : option string -> bool) (s : soup) : option anchor :=
  hd_error (find_all_a f s).

(** [[a['href'] for a in soup.find_all('a', href=True, string=contains_posting)
      if 'https' in a['href']]] *)
Definition posting_urls (s : soup) : list string :=
  flat_map (fun a => match a_href a with
                     | Some h => if PyStr.in_str "https" h then [h] else []
                     | None => []
                     end)
           (find_all_a contains_posting s).

Definition posting_keywords : list string :=
  ["faculty"; "professor"; "position"; "instructor"].

(** ** Python values, exceptions and the names the script mutates *)

Inductive pyval :=
| VNone
| VBool (b : bool)
| VInt (z : Z)
| VStr (s : string).

(** The sentinel stored when a posting exhausts its attempts. *)
Definition FAILURE : pyval := VStr "FAILURE".

(** A record of the script is a Python list of values. *)
Definition row := list pyval.

(** What the outside (selenium, a helper) raises: some subclass of
    [Exception], with its message. *)
Inductive fault := Fault (msg : string).

Inductive exn :=
| SystemExit                      (* [sys.exit()]: a BaseException, not an Exception *)
| NameError (name : string)
| TypeError
| IndexError
| External (f : fault).

(** [except Exception] catches everything but [SystemExit]; a bare
    [except:] catches everything. *)
Definition is_Exception (e : exn) : bool :=
  match e with SystemExit => false | _ => true end.

Definition is_BaseException (e : exn) : bool := true.

Record state := mkState {
  clock : nat;                    (* interactions with the outside so far *)
  page_source : string;           (* [driver.page_source] *)
  visited : list string;          (* arguments of [driver.get], oldest first *)
  url_binding : option string;    (* the module-level name [url]; [None] while unbound *)
  data_compilation : list row;
  data_compilation_urls_inside_messages : list row
}.

Definition initial_state : state := mkState 0 "" [] None [] [].

Definition set_browser (t : nat) (src : string) (log : list string) (st : state) : state :=
  mkState t src log (url_binding st) (data_compilation st)
          (data_compilation_urls_inside_messages st).

Definition set_clock (t : nat) (st : state) : state :=
  set_browser t (page_source st) (visited st) st.

Definition set_url (u : string) (st : state) : state :=
  mkState (clock st) (page_source st) (visited st) (Some u) (data_compilation st)
          (data_compilation_urls_inside_messages st).

Definition set_data_compilation (dc : list row) (st : state) : state :=
  mkState (clock st) (page_source st) (visited st) (url_binding st) dc
          (data_compilation_urls_inside_messages st).

Definition set_urls_inside_messages (l : list row) (st : state) : state :=
  mkState (clock st) (page_source st) (visited st) (url_binding st)
          (data_compilation st) l.

(** ** The monad: state that survives a raised exception *)

Inductive result (A : Type) :=
| Ret (a : A)
| Raise (e : exn).
Arguments Ret {A} a.
Arguments Raise {A} e.

Definition M (A : Type) : Type := state -> result A * state.

Definition ret {A} (a : A) : M A := fun st => (Ret a, st).

Definition raise {A} (e : exn) : M A := fun st => (Raise e, st).

Definition bind {A B} (m : M A) (k : A -> M B) : M B :=
  fun st => match m st with
            | (Ret a, st') => k a st'
            | (Raise e, st') => (Raise e, st')
            end.

(** [try: body  except <catches> as e: handler e] *)
Definition try_except {A} (body : M A) (catches : exn -> bool) (handler : exn -> M A) : M A :=
  fun st => match body st with
            | (Ret a, st') => (Ret a, st')
            | (Raise e, st') => if catches e then handler e st' else (Raise e, st')
            end.

Declare Scope py_scope.
Delimit Scope py_scope with py.
Notation "x <- m ;; k" := (bind m (fun x => k))
  (at level 61, m at next level, right associativity) : py_scope.
Notation "m ;; k" := (bind m (fun _ => k))
  (at level 61, right associativity) : py_scope.
Open Scope py_scope.

(** The state a computation leaves, and what it returns or raises. *)
Definition exec {A} (m : M A) (st : state) : state := snd (m st).
Definition outcome {A} (m : M A) (st : state) : result A := fst (m st).

(** [for x in l: f x] *)
Fixpoint for_each {A} (f : A -> M unit) (l : list A) : M unit :=
  match l with
  | [] => ret tt
  | x :: l' => f x ;; for_each f l'
  end.

(** [l[i]] for [i >= 0] and [l[-k]] for [k >= 1] *)
Definition subscript {A} (l : list A) (i : nat) : M A :=
  match nth_error l i with
  | Some a => ret a
  | None => raise IndexError
  end.

Definition subscript_from_end {A} (l : list A) (k : nat) : M A :=
  match k with
  | 0 => raise IndexError
  | S j => subscript (rev l) j
  end.

(** A call of a helper that may raise. *)
Definition call {A} (r : fault + A) : M A :=
  match r with
  | inr a => ret a
  | inl f => raise (External f)
  end.

(** The process exit status: [sys.exit()] without an argument is a
    clean exit. *)
Definition exit_code {A} (r : result A) : Z :=
  match r with
  | Ret _ => 0
  | Raise SystemExit => 0
  | Raise _ => 1
  end.

(** The id stored at the head of a posting record. *)
Definition record_id (r : row) : option Z :=
  match r with
  | VInt z :: _ => Some z
  | _ => None
  end.

(** The parameters of the script. *)
Definition ntries : nat := 15.
Definition url_base : string := "https://listserv.kent.edu".
Definition url_login : string := "https://listserv.kent.edu/cgi-bin/wa.exe?LOGON".

(** One [<li>] of the archive index: its text and the [href] of its
    first [<a>], when it has one. *)
Record li_element := mkLi { li_text : string; li_a_href : option string }.

(** [list(dict.fromkeys(l))]: the first occurrences, in order. *)
Fixpoint dict_fromkeys_from (seen : list string) (l : list string) : list string :=
  match l with
  | [] => []
  | x :: l' =>
      if existsb (String.eqb x) seen then dict_fromkeys_from seen l'
      else x :: dict_fromkeys_from (x :: seen) l'
  end.

Definition dict_fromkeys (l : list string) : list string := dict_fromkeys_from [] l.

(** [[row[0] for row in rows]] *)
Fixpoint first_cells (rows : list (list string)) : M (list string) :=
  match rows with
  | [] => ret []
  | r :: rows' =>
      c <- subscript r 0 ;;
      cs <- first_cells rows' ;;
      ret (c :: cs)
  end.

(** ** The URL extractor of [shared_scripts] *)

Module UrlExtractor.

Definition is_space (c : ascii) : bool :=
  let n := nat_of_ascii c in
  Nat.eqb n 32 || (Nat.leb 9 n && Nat.leb n 13).

(** The longest prefix without white space. *)
Fixpoint url_run (s : string) : string :=
  match s with
  | EmptyString => EmptyString
  | String c s' => if is_space c then EmptyString else String c (url_run s')
  end.

Definition starts_url (s : string) : bool :=
  PyStr.startswith "http://" s || PyStr.startswith "https://" s.

(** The matches of the URL pattern in [s], left to right; [skip]
    counts the characters of [s] still inside the previous match. *)
Fixpoint urls_from (s : string) (skip : nat) : list string :=
  match s with
  | EmptyString => []
  | String _ s' =>
      match skip with
      | S k => urls_from s' k
      | 0 =>
          if starts_url s
          then url_run s :: urls_from s' (String.length (url_run s) - 1)
          else urls_from s' 0
      end
  end.

(** Modelled from the spec: [extract_urls] is imported from
    [shared_scripts/url_extractor.py], which is not among the sources.
    The spec's UrlExtractor, given plain text, produces in document
    order the substrings matching a URL pattern, duplicates kept; its
    example finds [https://example.com/job123] and [http://foo.org] in
    a sentence.  The pattern here is a scheme [http://] or [https://]
    followed by the longest run without white space.  The spec defines
    the extractor on plain text only; what the helper does with a value
    that is not text is left to the outside. *)
Definition extract_urls (text : string) : list string := urls_from text 0.

End UrlExtractor.

(** ** The script *)

(** The outside.  Every interaction advances [clock], and what the
    outside answers may depend on it: the same URL can fail now and
    load on the next attempt. *)
Record World := mkWorld {
  (** [driver.get(u)] at interaction [t]: the page then shown, or a fault. *)
  browse : nat -> string -> fault + string;
  (** [login_cesnet(driver, password)] at interaction [t]: the page shown
      after logging in, or a fault of [find_element]. *)
  login : nat -> fault + string;
  (** Lines 246 to 274 at interaction [t]: log in at [url_login], open
      the CESNET-L archive and read its [<li>] elements. *)
  archive_index : nat -> fault + list li_element;
  (** [BeautifulSoup(source, 'html.parser')]; [h2_texts] holds
      [h.text.strip()] for each [h2]. *)
  BeautifulSoup : string -> soup;
  (** [shared_scripts.text_extractor.extract_text] and
      [shared_scripts.salary_functions.check_salary]: not among the
      sources, and only their results are passed along. *)
  extract_text : string -> fault + string;
  check_salary : string -> fault + pyval;
  (** [datetime.now().strftime(...)] at interaction [t]. *)
  now : nat -> string;
  (** One rendering of an embedded URL at interaction [t], inside
      [get_selenium_response]. *)
  fetch_rendered : nat -> string -> fault + string;
  (** The attempt ceiling of [get_selenium_response]. *)
  max_attempts : nat;
  (** [shared_scripts.url_extractor.extract_urls] on a value that is not
      text: the URLs it returns, or a fault.  Neither the sources nor
      the spec say which; the script hands it [data_posting[-1]]
      whatever that is (lines 630 to 634). *)
  extract_urls_non_text : pyval -> fault + list string
}.

Section Script.

Variable w : World.

(** *** Primitive statements *)

Definition driver_get (u : string) : M unit :=
  fun st =>
    match browse w (clock st) u with
    | inr src => (Ret tt, set_browser (S (clock st)) src (visited st ++ [u]) st)
    | inl f => (Raise (External f),
                set_browser (S (clock st)) (page_source st) (visited st ++ [u]) st)
    end.

Definition driver_page_source : M string :=
  fun st => (Ret (page_source st), st).

Definition login_cesnet : M unit :=
  fun st =>
    match login w (clock st) with
    | inr src => (Ret tt, set_browser (S (clock st)) src (visited st) st)
    | inl f => (Raise (External f), set_clock (S (clock st)) st)
    end.

Definition open_archive : M (list li_element) :=
  fun st =>
    let st' := set_browser (S (clock st)) (page_source st) (visited st ++ [url_login]) st in
    match archive_index w (clock st) with
    | inr lis => (Ret lis, st')
    | inl f => (Raise (External f), st')
    end.

Definition datetime_now : M string :=
  fun st => (Ret (now w (clock st)), st).

(** [for url in urls] binds the module-level name [url]. *)
Definition bind_url (u : string) : M unit :=
  fun st => (Ret tt, set_url u st).

(** Reading the name [url]. *)
Definition read_url : M string :=
  fun st => match url_binding st with
            | Some u => (Ret u, st)
            | None => (Raise (NameError "url"), st)
            end.

Definition len_data_compilation : M nat :=
  fun st => (Ret (List.length (data_compilation st)), st).

Definition data_compilation_append (r : row) : M unit :=
  fun st => (Ret tt, set_data_compilation (data_compilation st ++ [r]) st).

Definition len_urls_inside_messages : M nat :=
  fun st => (Ret (List.length (data_compilation_urls_inside_messages st)), st).

Definition urls_inside_messages_append (r : row) : M unit :=
  fun st => (Ret tt, set_urls_inside_messages
                       (data_compilation_urls_inside_messages st ++ [r]) st).

(** [driver.get(u)], then the login check, then [driver.page_source]:
    the sequence the script repeats at every page it opens. *)
Definition visit (u : string) : M string :=
  driver_get u ;;
  src <- driver_page_source ;;
  (if check_login_required src then login_cesnet else ret tt) ;;
  driver_page_source.

(** [a['href']] on the result of [soup.find]: [None['href']] is a
    [TypeError]. *)
Definition subscript_href (a : option anchor) : M string :=
  match a with
  | None => raise TypeError
  | Some a' => match a_href a' with
               | Some h => ret h
               | None => raise TypeError
               end
  end.

(** [li.find_element(By.TAG_NAME, "a").get_attribute("href")]; an
    [<li>] without a link raises NoSuchElementException. *)
Definition subscript_href_li (li : li_element) : M string :=
  match li_a_href li with
  | Some h => ret h
  | None => raise (External (Fault "NoSuchElementException"))
  end.

(** *** Scraping the compilations (first re-try block) *)

(** Lines 312 to 352, and again 362 to 402: open one compilation and
    read its week and posting URLs. *)
Definition scrape_compilation (compilation_url : string) : M (string * list string) :=
  source_code <- visit compilation_url ;;
  let soup_compilation := BeautifulSoup w source_code in
  week <- subscript (h2_texts soup_compilation) 1 ;;
  ret (week, posting_urls soup_compilation).

Section Ledger.

Variable last_compilation_collected : string.
Variable previous_to_last_compilation_collected : string.
Variable n_compilations : nat.
Variable n_urls : nat.

(** The body of the [try] of the first re-try block. *)
Definition first_block_body : M (list (string * list string)) :=
  li_elements <- open_archive ;;
  let li_elements_text := map li_text li_elements in
  previous_to_latest_compilation <- subscript li_elements_text 1 ;;
  previous_to_previous_to_latest_compilation <- subscript li_elements_text 2 ;;
  if String.eqb previous_to_latest_compilation last_compilation_collected
     && String.eqb previous_to_previous_to_latest_compilation
                   previous_to_last_compilation_collected
  then raise SystemExit
  else
    li1 <- subscript li_elements 1 ;;
    previous_to_latest_compilation_url <- subscript_href_li li1 ;;
    li2 <- subscript li_elements 2 ;;
    previous_to_previous_to_latest_compilation_url <- subscript_href_li li2 ;;
    let missing_compilations_data := [] in
    missing_compilations_data <-
      (if negb (String.eqb previous_to_previous_to_latest_compilation
                           last_compilation_collected)
       then missing_compilation <-
              scrape_compilation previous_to_previous_to_latest_compilation_url ;;
            ret (missing_compilations_data ++ [missing_compilation])
       else ret missing_compilations_data) ;;
    missing_compilations_data <-
      (if negb (String.eqb previous_to_latest_compilation last_compilation_collected)
       then missing_compilation <-
              scrape_compilation previous_to_latest_compilation_url ;;
            ret (missing_compilations_data ++ [missing_compilation])
       else ret missing_compilations_data) ;;
    ret missing_compilations_data.

(** [for attempt in range(ntries)] around that body; [attempts] is what
    is left of [range(ntries)].  [sys.exit()] passes through
    [except Exception].  Falling off the loop without a [break] leaves
    [missing_compilations_data] unbound for line 427; with [ntries = 15]
    the last attempt re-raises and this case cannot arise. *)
Fixpoint first_block (attempts : list nat) : M (list (string * list string)) :=
  match attempts with
  | [] => raise (NameError "missing_compilations_data")
  | attempt :: rest =>
      try_except first_block_body is_Exception
        (fun e => if Nat.ltb attempt (ntries - 1) then first_block rest else raise e)
  end.

(** *** Scraping the messages (second re-try block) *)

(** Lines 493 to 530, and again 538 to 575: follow the link whose text
    passes [wanted], open the message and extract text and salary flag.
    The three [append]s come last, after everything that can raise, so
    the tier hands the three values over and the caller appends them. *)
Definition message_tier (wanted : option string -> bool) (soup_posting : soup)
  : M (pyval * string * string) :=
  href <- subscript_href (find_a wanted soup_posting) ;;
  let url_message := (url_base ++ href)%string in
  source_code_message <- visit url_message ;;
  text <- call (extract_text w source_code_message) ;;
  salary_flag <- call (check_salary w text) ;;
  ret (salary_flag, source_code_message, text).

(** Lines 489 to 575: [try:] the plain-text tier, bare [except:] the
    HTML tier. *)
Definition message_lookup (soup_posting : soup) : M (pyval * string * string) :=
  try_except (message_tier contains_plain_text soup_posting) is_BaseException
    (fun _ => message_tier contains_html soup_posting).

(** The body of the [try] of the second re-try block, up to the
    [break]. *)
Definition posting_attempt (u : string) : M (pyval * string * string) :=
  source_code_posting <- visit u ;;
  let soup_posting := BeautifulSoup w source_code_posting in
  message_lookup soup_posting.

(** [for attempt in range(ntries)] of the second re-try block.  It
    returns [data_posting] as the loop leaves it.  On the last attempt
    the handler appends the sentinels and appends [data_posting] to
    [data_compilation] (line 602). *)
Fixpoint second_block (attempts : list nat) (u : string) (data_posting : row) : M row :=
  match attempts with
  | [] => ret data_posting
  | attempt :: rest =>
      try_except
        (r <- posting_attempt u ;;
         let '(salary_flag, source_code_message, text) := r in
         ret (data_posting ++ [salary_flag; VStr source_code_message; VStr text]))
        is_Exception
        (fun e =>
           if Nat.ltb attempt (ntries - 1) then second_block rest u data_posting
           else
             let data_posting := data_posting ++ [FAILURE; FAILURE; FAILURE] in
             data_compilation_append data_posting ;;
             second_block rest u data_posting)
  end.

(** The body of [for url in urls] (lines 443 to 607); line 606 appends
    [data_posting] whatever way the re-try loop ended. *)
Definition scrape_posting (week u : string) : M unit :=
  bind_url u ;;
  len <- len_data_compilation ;;
  ts <- datetime_now ;;
  let data_posting :=
    [VInt (Z.of_nat (n_compilations + len + 1)); VStr week; VStr u; VStr ts] in
  data_posting <- second_block (seq 0 ntries) u data_posting ;;
  data_compilation_append data_posting.

(** The body of [for missing_compilation in missing_compilations_data]. *)
Definition scrape_missing_compilation (missing_compilation : string * list string) : M unit :=
  let week := fst missing_compilation in
  let urls := snd missing_compilation in
  if Nat.ltb 0 (List.length urls)
  then for_each (scrape_posting week) urls
  else
    len <- len_data_compilation ;;
    u <- read_url ;;
    ts <- datetime_now ;;
    data_compilation_append
      [VInt (Z.of_nat (n_compilations + len + 1)); VStr week; VStr u; VStr ts;
       VNone; VNone; VNone].

Definition scrape_messages (missing_compilations_data : list (string * list string)) : M unit :=
  for_each scrape_missing_compilation missing_compilations_data.

(** *** Scraping the URLs inside the messages *)

(** One rendering of [u] by the helper's own browser. *)
Definition fetch (u : string) : M string :=
  fun st =>
    match fetch_rendered w (clock st) u with
    | inr src => (Ret src, set_clock (S (clock st)) st)
    | inl f => (Raise (External f), set_clock (S (clock st)) st)
    end.

(** Modelled from the spec: the RetryExecutor of section 4.3.  It runs
    the operation up to a ceiling of attempts; a success returns at
    once; a fault is followed by a delay and another attempt, except on
    the final attempt, where the fault is re-raised to the caller.
    [retries] counts the attempts that may still follow this one. *)
Fixpoint execute_retrying {A} (operation : M A) (retries : nat) : M A :=
  match retries with
  | 0 => operation
  | S k => try_except operation is_Exception (fun _ => execute_retrying operation k)
  end.

Definition execute {A} (operation : M A) (attempts : nat) : M A :=
  execute_retrying operation (attempts - 1).

(** Modelled from the spec: [get_selenium_response] is imported from
    [shared_scripts/scraper.py], which is not among the sources.  The
    spec has each embedded URL fetched through the RetryExecutor with
    its default policy, fatal on exhaustion. *)
Definition get_selenium_response (u : string) : M string :=
  execute (fetch u) (max_attempts w).

(** The body of [for url_in_message in urls_in_message] (lines 638 to
    690). *)
Definition scrape_url_in_message (data_posting : row) (url_in_message : string) : M unit :=
  posting_id <- subscript data_posting 0 ;;
  len <- len_urls_inside_messages ;;
  week <- subscript data_posting 1 ;;
  posting_url <- subscript data_posting 2 ;;
  ts <- datetime_now ;;
  let data_url_in_message :=
    [posting_id; VInt (Z.of_nat (n_urls + len + 1)); week; posting_url;
     VStr url_in_message; VStr ts] in
  source_code_url_in_message <- get_selenium_response url_in_message ;;
  text_in_url_in_message <- call (extract_text w source_code_url_in_message) ;;
  salary_flag <- call (check_salary w text_in_url_in_message) ;;
  urls_inside_messages_append
    (data_url_in_message ++
     [salary_flag; VStr source_code_url_in_message; VStr text_in_url_in_message]).

(** What [extract_urls(text)] answers: on text, the matches of the
    spec's UrlExtractor; on any other value, what the outside says. *)
Definition extracted (text : pyval) : fault + list string :=
  match text with
  | VStr s => inr (UrlExtractor.extract_urls s)
  | _ => extract_urls_non_text w text
  end.

(** [extract_urls(text)] (line 634); the call has no guard and no
    [try] around it. *)
Definition extract_urls (text : pyval) : M (list string) := call (extracted text).

(** The body of [for data_posting in data_compilation] (lines 626 to
    690). *)
Definition scrape_urls_inside_message (data_posting : row) : M unit :=
  text <- subscript_from_end data_posting 1 ;;
  urls_in_message <- extract_urls text ;;
  for_each (scrape_url_in_message data_posting) urls_in_message.

Definition scrape_urls_inside_messages : M unit :=
  fun st => for_each scrape_urls_inside_message (data_compilation st) st.

End Ledger.

(** *** The script, from reading the ledgers to "Scraping finished"

    [rows_postings] is column B of the postings sheet and [n_urls] the
    number of rows of the sheet of embedded URLs.  Writing the two lists
    to the sheets and to the drive comes after: see [Storage] and [main]. *)
Definition script (rows_postings : list (list string)) (n_urls : nat) : M unit :=
  cells <- first_cells rows_postings ;;
  let weeks := dict_fromkeys cells in
  last_compilation_collected <- subscript_from_end weeks 1 ;;
  previous_to_last_compilation_collected <- subscript_from_end weeks 2 ;;
  let n_compilations := List.length rows_postings in
  missing_compilations_data <-
    first_block last_compilation_collected previous_to_last_compilation_collected
                (seq 0 ntries) ;;
  scrape_messages n_compilations missing_compilations_data ;;
  scrape_urls_inside_messages n_urls.

End Script.

(** ** Notions used to state the properties *)

(** The anchors whose [href] the comprehension of line 344 keeps, in
    words: the anchor has an [href] and a [.string], some keyword occurs
    in the lowered string, and ["https"] occurs in the [href]. *)
Definition qualifies (a : anchor) : Prop :=
  exists h t,
    a_href a = Some h /\ a_string a = Some t /\
    (exists kw, In kw posting_keywords /\ PyStr.Substring kw (PyStr.lower t)) /\
    PyStr.Substring "https" h.

Definition href_of (a : anchor) : list string :=
  match a_href a with
  | Some h => [h]
  | None => []
  end.

(** [st'] differs from [st] in the browser and the clock only. *)
Definition same_data (st st' : state) : Prop :=
  url_binding st' = url_binding st /\
  data_compilation st' = data_compilation st /\
  data_compilation_urls_inside_messages st' = data_compilation_urls_inside_messages st.

(** A computation that touches the browser only and raises nothing
    that [except Exception] lets through. *)
Definition browser_only {A} (m : M A) : Prop :=
  forall st,
    same_data st (exec m st) /\
    match outcome m st with
    | Raise e => is_Exception e = true
    | Ret _ => True
    end.

(** The records [data_compilation] gained between two states. *)
Definition appended (before after : state) : list row :=
  skipn (List.length (data_compilation before)) (data_compilation after).

Definition failure_tail : row := [FAILURE; FAILURE; FAILURE].

(** The second field of the [i]-th of [new] is the id that follows
    [n_urls] rows of the ledger and [from + i] records of the run. *)
Definition contiguous_ids (n_urls from : nat) (new : list row) : Prop :=
  forall i r, nth_error new i = Some r ->
    nth_error r 1 = Some (VInt (Z.of_nat (n_urls + from + i + 1))).

(** The list of embedded-URL records has only grown, by records whose
    ids continue the sequence. *)
Definition extends_contiguously (n_urls : nat) (st st' : state) : Prop :=
  exists new,
    data_compilation_urls_inside_messages st' =
      data_compilation_urls_inside_messages st ++ new /\
    contiguous_ids n_urls (List.length (data_compilation_urls_inside_messages st)) new.

Section Notions.

Variable w : World.

(** Every one of the next [attempts] attempts at [u] raises, each
    starting in the state the one before left. *)
Fixpoint exhausts (u : string) (attempts : nat) (st : state) : bool :=
  match attempts with
  | 0 => true
  | S k =>
      match posting_attempt w u st with
      | (Raise _, st') => exhausts u k st'
      | (Ret _, _) => false
      end
  end.

(** The four fields [data_posting] holds when the re-try loop starts. *)
Definition posting_head (n_compilations : nat) (week u : string) (st : state) : row :=
  [VInt (Z.of_nat (n_compilations + List.length (data_compilation st) + 1));
   VStr week; VStr u; VStr (now w (clock st))].

(** What an attempt of the first block that starts in [st] and ends
    with a [break] in [st'] has done: it read the index, then opened
    the compilation of the third entry if its label is not the last one
    collected, then that of the second entry likewise, and
    [missing_compilations_data] holds what it read, in that order. *)
Definition oldest_first (last_compilation_collected : string)
  (st : state) (missing_compilations_data : list (string * list string))
  (st' : state) : Prop :=
  exists lis li1 li2 up upp s1 older newer,
    archive_index w (clock st) = inr lis /\
    nth_error lis 1 = Some li1 /\ nth_error lis 2 = Some li2 /\
    li_a_href li1 = Some up /\ li_a_href li2 = Some upp /\
    (if String.eqb (li_text li2) last_compilation_collected
     then s1 = exec (open_archive w) st /\ older = []
     else exists c, scrape_compilation w upp (exec (open_archive w) st) = (Ret c, s1) /\
                    older = [c]) /\
    (if String.eqb (li_text li1) last_compilation_collected
     then st' = s1 /\ newer = []
     else exists c, scrape_compilation w up s1 = (Ret c, st') /\ newer = [c]) /\
    missing_compilations_data = older ++ newer.

End Notions.

(** ** A concrete outside, for running the script *)

Module Scenario.

Definition week1_url : string := "https://listserv.kent.edu/cgi-bin/wa.exe?A1=week1".
Definition week2_url : string := "https://listserv.kent.edu/cgi-bin/wa.exe?A1=week2".
Definition unreachable_posting : string := "https://listserv.kent.edu/cgi-bin/wa.exe?A2=1".
Definition plain_posting : string := "https://listserv.kent.edu/cgi-bin/wa.exe?A2=2".
Definition two_part_posting : string := "https://listserv.kent.edu/cgi-bin/wa.exe?A2=3".
Definition dead_link : string := "https://dead.example/job".

(** The page of a posting that offers both parts. *)
Definition two_part_page : soup :=
  mkSoup [] [mkAnchor (Some "/cgi-bin/wa.exe?A3=plain") (Some "text/plain (12 lines)");
             mkAnchor (Some "/cgi-bin/wa.exe?A3=html") (Some "text/html (30 lines)")].

(** The archive lists the unfinished week, then Week 2, then Week 1.
    Week 1 has no qualifying link; Week 2 has two.  One posting never
    loads; the plain-text part of another never loads; every other page
    loads and shows its own address. *)
Definition outside : World := {|
  browse := fun _ u =>
    if String.eqb u unreachable_posting
       || String.eqb u (url_base ++ "/cgi-bin/wa.exe?A3=plain")%string
    then inl (Fault "timeout") else inr u;
  login := fun _ => inr "logged in";
  archive_index := fun _ =>
    inr [mkLi "August 2024, Week 3" (Some "https://listserv.kent.edu/cgi-bin/wa.exe?A1=week3");
         mkLi "August 2024, Week 2" (Some week2_url);
         mkLi "August 2024, Week 1" (Some week1_url)];
  BeautifulSoup := fun src =>
    if String.eqb src week2_url
    then mkSoup ["CESNET-L"; "August 2024, Week 2"]
                [mkAnchor (Some unreachable_posting) (Some "Faculty opening");
                 mkAnchor (Some plain_posting) (Some "Tenure-track Position")]
    else if String.eqb src week1_url
    then mkSoup ["CESNET-L"; "August 2024, Week 1"]
                [mkAnchor (Some "https://listserv.kent.edu/help") (Some "click here")]
    else if String.eqb src two_part_posting
    then two_part_page
    else mkSoup [] [mkAnchor (Some "/cgi-bin/wa.exe?A3=msg") (Some "text/plain (20 lines)")];
  extract_text := fun src => inr ("text of " ++ src)%string;
  check_salary := fun _ => inr (VBool false);
  now := fun _ => "2024-08-20 09:00:00";
  fetch_rendered := fun _ u =>
    if String.eqb u dead_link then inl (Fault "timeout") else inr "rendered page";
  max_attempts := 3;
  extract_urls_non_text := fun _ => inr []
|}.

(** Column B of a postings sheet whose last week is July's. *)
Definition ledger_july : list (list string) :=
  [["July 2024, Week 3"]; ["July 2024, Week 4"]; ["July 2024, Week 4"]].

(** Column B of a postings sheet that already holds both weeks. *)
Definition ledger_august : list string :=
  ["July 2024, Week 4"; "August 2024, Week 1"; "August 2024, Week 1";
   "August 2024, Week 2"].

(** Column B of a postings sheet that holds Week 1 but not Week 2. *)
Definition ledger_week1 : list (list string) :=
  [["July 2024, Week 4"]; ["August 2024, Week 1"]; ["August 2024, Week 1"]].

(** An anchor whose text matches and whose [href] is not an https URL. *)
Definition insecure_anchor : anchor :=
  mkAnchor (Some "http://insecure.example/https-jobs") (Some "Lecturer Position").

(** A posting record whose text names an address that never renders. *)
Definition posting_with_dead_link : row :=
  [VInt 7; VStr "August 2024, Week 2"; VStr plain_posting; VStr "2024-08-20 09:00:00";
   VBool false; VStr "<p>markup</p>"; VStr "Apply at https://dead.example/job today"].

End Scenario.

(** ** Writing the new data to Google Sheets and Google Drive

    The part of the script after "Scraping finished" (lines 694 to 866)
    and the function [upload_file] (lines 99 to 150).  It reads the two
    lists the scraping left and touches the spreadsheet service, the
    Drive service and the local disk, which are the state here. *)

Module Storage.

(** [str(x)] as an f-string or [str()] formats the values the script
    holds. *)
Definition py_str (v : pyval) : string :=
  match v with
  | VNone => "None"
  | VBool true => "True"
  | VBool false => "False"
  | VInt z => NilZero.string_of_int (Z.to_int z)
  | VStr s => s
  end.

Definition str_nat (n : nat) : string := NilZero.string_of_uint (Nat.to_uint n).

Definition spreadsheet_postings_id : string :=
  "1APvXQ2H1MWvpk3T7mHTyr4rkDEIOgZYZplK3a2XNspI".
Definition spreadsheet_urls_id : string :=
  "1Ao34BRLA9bFZ-I-koC4Qd1kGSP65X4akcOF3SPhuT18".
Definition folder_postings : string := "1qx2CMXHTj0Km3LGaD7K1dB-2jhLBya6y".
Definition folder_urls : string := "1du_dluC7hiGmk4EuQHCCH8Y0Rw9zxsmg".

(** The services and the disk, as they answer at interaction [t];
    [None] is a call that went through, [Some f] one that raised [f]
    and changed nothing. *)
Record Services := mkServices {
  (** [service.spreadsheets().values().update(spreadsheetId, range,
      body).execute()] *)
  values_update : nat -> string -> string -> list row -> option fault;
  (** [build('drive', 'v3', credentials=credentials)] *)
  build_drive : nat -> option fault;
  (** [open(file_name, 'w')] *)
  fs_open : nat -> string -> option fault;
  (** [MediaFileUpload(file_name, ...)] and
      [service.files().create(...).execute()], on folder, name and the
      content read from the file *)
  files_create : nat -> string -> string -> string -> option fault;
  (** [os.remove(file_name)] *)
  fs_remove : nat -> string -> option fault
}.

Record store := mkStore {
  s_clock : nat;
  (** the local files: name and content *)
  disk : list (string * string);
  (** the files created in Drive, oldest first: folder, name, content *)
  drive : list (string * string * string);
  (** the updates applied to the sheets, oldest first: spreadsheet,
      range, rows *)
  sheets : list (string * string * list row)
}.

Definition initial_store (t : nat) : store := mkStore t [] [] [].

Definition tick (so : store) : store :=
  mkStore (S (s_clock so)) (disk so) (drive so) (sheets so).

Definition set_disk (d : list (string * string)) (so : store) : store :=
  mkStore (s_clock so) d (drive so) (sheets so).

Definition disk_without (name : string) (d : list (string * string)) : list (string * string) :=
  filter (fun e => negb (String.eqb name (fst e))) d.

Definition disk_put (name content : string) (d : list (string * string)) : list (string * string) :=
  (name, content) :: disk_without name d.

Definition disk_read (name : string) (d : list (string * string)) : option string :=
  option_map snd (find (fun e => String.eqb name (fst e)) d).

(** The same monad as [M], over [store]. *)
Definition SM (A : Type) : Type := store -> result A * store.

Definition sret {A} (a : A) : SM A := fun so => (Ret a, so).

Definition sraise {A} (e : exn) : SM A := fun so => (Raise e, so).

Definition sbind {A B} (m : SM A) (k : A -> SM B) : SM B :=
  fun so => match m so with
            | (Ret a, so') => k a so'
            | (Raise e, so') => (Raise e, so')
            end.

Definition stry {A} (body : SM A) (catches : exn -> bool) (handler : exn -> SM A) : SM A :=
  fun so => match body so with
            | (Ret a, so') => (Ret a, so')
            | (Raise e, so') => if catches e then handler e so' else (Raise e, so')
            end.

Declare Scope store_scope.
Delimit Scope store_scope with store.
Notation "x <- m ;; k" := (sbind m (fun x => k))
  (at level 61, m at next level, right associativity) : store_scope.
Notation "m ;; k" := (sbind m (fun _ => k))
  (at level 61, right associativity) : store_scope.
#[local] Open Scope store_scope.

Fixpoint sfor_each {A} (f : A -> SM unit) (l : list A) : SM unit :=
  match l with
  | [] => sret tt
  | x :: l' => f x ;; sfor_each f l'
  end.

Definition ssubscript {A} (l : list A) (i : nat) : SM A :=
  match nth_error l i with
  | Some a => sret a
  | None => sraise IndexError
  end.

Definition ssubscript_from_end {A} (l : list A) (k : nat) : SM A :=
  match k with
  | 0 => sraise IndexError
  | S j => ssubscript (rev l) j
  end.

(** [element[:-2]] *)
Definition drop_last_two (element : row) : row :=
  firstn (List.length element - 2) element.

Section Services.

Variable sv : Services.

(** [with open(file_name, 'w') as temp_file:] creates the file, or
    empties it. *)
Definition open_w (file_name : string) : SM unit :=
  fun so =>
    match fs_open sv (s_clock so) file_name with
    | None => (Ret tt, tick (set_disk (disk_put file_name "" (disk so)) so))
    | Some f => (Raise (External f), tick so)
    end.

(** [temp_file.write(content)]: a [TypeError] unless [content] is a
    string. *)
Definition file_write (file_name : string) (content : pyval) : SM unit :=
  fun so =>
    match content with
    | VStr s => (Ret tt, set_disk (disk_put file_name s (disk so)) so)
    | _ => (Raise TypeError, so)
    end.

(** Lines 136 and 140: the media is read from the file and the file is
    created in the folder. *)
Definition create_in_drive (file_name folder_id : string) : SM unit :=
  fun so =>
    match disk_read file_name (disk so) with
    | None => (Raise (External (Fault "FileNotFoundError")), so)
    | Some content =>
        match files_create sv (s_clock so) folder_id file_name content with
        | None => (Ret tt,
                   mkStore (S (s_clock so)) (disk so)
                           (drive so ++ [(folder_id, file_name, content)]) (sheets so))
        | Some f => (Raise (External f), tick so)
        end
    end.

Definition os_remove (file_name : string) : SM unit :=
  fun so =>
    match disk_read file_name (disk so) with
    | None => (Raise (External (Fault "FileNotFoundError")), so)
    | Some _ =>
        match fs_remove sv (s_clock so) file_name with
        | None => (Ret tt, tick (set_disk (disk_without file_name (disk so)) so))
        | Some f => (Raise (External f), tick so)
        end
    end.

(** [upload_file(element_id, file_suffix, content, folder_id, service,
    logger)]; it returns [None]. *)
Definition upload_file (element_id : pyval) (file_suffix : string) (content : pyval)
  (folder_id : string) : SM unit :=
  stry
    (let file_name := (py_str element_id ++ "_" ++ file_suffix ++ ".txt")%string in
     open_w file_name ;;
     file_write file_name content ;;
     create_in_drive file_name folder_id ;;
     os_remove file_name)
    is_Exception
    (fun _ => sret tt).

Definition update_values (spreadsheet_id range_sheet : string) (values : list row) : SM unit :=
  fun so =>
    match values_update sv (s_clock so) spreadsheet_id range_sheet values with
    | None => (Ret tt,
               mkStore (S (s_clock so)) (disk so) (drive so)
                       (sheets so ++ [(spreadsheet_id, range_sheet, values)]))
    | Some f => (Raise (External f), tick so)
    end.

Definition build : SM unit :=
  fun so =>
    match build_drive sv (s_clock so) with
    | None => (Ret tt, tick so)
    | Some f => (Raise (External f), tick so)
    end.

(** Lines 699 to 734: the re-try block that writes the postings. *)
Fixpoint write_postings (attempts : list nat) (n_compilations : nat)
  (data_compilation : list row) : SM unit :=
  match attempts with
  | [] => sret tt
  | attempt :: rest =>
      stry
        (let range_sheet := ("A" ++ str_nat (n_compilations + 1) ++ ":E10000000")%string in
         let body := map drop_last_two data_compilation in
         update_values spreadsheet_postings_id range_sheet body)
        is_Exception
        (fun e => if Nat.ltb attempt (ntries - 1)
                  then write_postings rest n_compilations data_compilation
                  else sraise e)
  end.

(** Lines 739 to 774: the re-try block that writes the URLs inside the
    messages. *)
Fixpoint write_urls (attempts : list nat) (n_urls : nat)
  (data_compilation_urls_inside_messages : list row) : SM unit :=
  match attempts with
  | [] => sret tt
  | attempt :: rest =>
      stry
        (let range_sheet := ("A" ++ str_nat (n_urls + 1) ++ ":G10000000")%string in
         let body := map drop_last_two data_compilation_urls_inside_messages in
         update_values spreadsheet_urls_id range_sheet body)
        is_Exception
        (fun e => if Nat.ltb attempt (ntries - 1)
                  then write_urls rest n_urls data_compilation_urls_inside_messages
                  else sraise e)
  end.

(** The body of [for element in data_compilation] (lines 797 to 808). *)
Definition upload_posting (element : row) : SM unit :=
  source_code <- ssubscript_from_end element 2 ;;
  text <- ssubscript_from_end element 1 ;;
  element_id <- ssubscript element 0 ;;
  upload_file element_id "source_code" source_code folder_postings ;;
  element_id <- ssubscript element 0 ;;
  upload_file element_id "text" text folder_postings.

(** The body of [for element in data_compilation_urls_inside_messages]
    (lines 838 to 849); the file is named after the second field. *)
Definition upload_url (element : row) : SM unit :=
  source_code <- ssubscript_from_end element 2 ;;
  text <- ssubscript_from_end element 1 ;;
  element_id <- ssubscript element 1 ;;
  upload_file element_id "source_code" source_code folder_urls ;;
  element_id <- ssubscript element 1 ;;
  upload_file element_id "text" text folder_urls.

(** Lines 787 to 823. *)
Fixpoint drive_postings (attempts : list nat) (data_compilation : list row) : SM unit :=
  match attempts with
  | [] => sret tt
  | attempt :: rest =>
      stry
        (build ;; sfor_each upload_posting data_compilation)
        is_Exception
        (fun e => if Nat.ltb attempt (ntries - 1)
                  then drive_postings rest data_compilation
                  else sraise e)
  end.

(** Lines 832 to 864. *)
Fixpoint drive_urls (attempts : list nat)
  (data_compilation_urls_inside_messages : list row) : SM unit :=
  match attempts with
  | [] => sret tt
  | attempt :: rest =>
      stry
        (sfor_each upload_url data_compilation_urls_inside_messages)
        is_Exception
        (fun e => if Nat.ltb attempt (ntries - 1)
                  then drive_urls rest data_compilation_urls_inside_messages
                  else sraise e)
  end.

(** Lines 694 to 866, on the lists the scraping left. *)
Definition write_new_data (n_compilations n_urls : nat)
  (data_compilation data_compilation_urls_inside_messages : list row) : SM unit :=
  write_postings (seq 0 ntries) n_compilations data_compilation ;;
  write_urls (seq 0 ntries) n_urls data_compilation_urls_inside_messages ;;
  drive_postings (seq 0 ntries) data_compilation ;;
  drive_urls (seq 0 ntries) data_compilation_urls_inside_messages.

End Services.

(** A disk, a Drive and sheets that never fail. *)
Definition reliable : Services :=
  mkServices (fun _ _ _ _ => None) (fun _ => None) (fun _ _ => None)
             (fun _ _ _ _ => None) (fun _ _ => None).

(** Services whose Drive refuses every file. *)
Definition drive_down : Services :=
  mkServices (fun _ _ _ _ => None) (fun _ => None) (fun _ _ => None)
             (fun _ _ _ _ => Some (Fault "HttpError 503")) (fun _ _ => None).

(** Services whose spreadsheet refuses every update. *)
Definition sheets_down : Services :=
  mkServices (fun _ _ _ _ => Some (Fault "HttpError 429")) (fun _ => None)
             (fun _ _ => None) (fun _ _ _ _ => None) (fun _ _ => None).

End Storage.

(** The whole script: the scraping, then, when it ends normally, the
    writing, which starts on an empty working directory. *)
Definition main (w : World) (sv : Storage.Services)
  (rows_postings : list (list string)) (n_urls : nat)
  : result unit * state * Storage.store :=
  match script w rows_postings n_urls initial_state with
  | (Ret _, st) =>
      let (r, so) :=
        Storage.write_new_data sv (List.length rows_postings) n_urls
          (data_compilation st) (data_compilation_urls_inside_messages st)
          (Storage.initial_store (clock st)) in
      (r, st, so)
  | (Raise e, st) => (Raise e, st, Storage.initial_store (clock st))
  end.

(** ** Outsides that fail *)

Module Outage.

(** The outside of [Scenario], with an archive index that never loads. *)
Definition no_archive : World :=
  mkWorld (browse Scenario.outside) (login Scenario.outside)
          (fun _ => inl (Fault "timeout"))
          (BeautifulSoup Scenario.outside) (extract_text Scenario.outside)
          (check_salary Scenario.outside) (now Scenario.outside)
          (fetch_rendered Scenario.outside) (max_attempts Scenario.outside)
          (extract_urls_non_text Scenario.outside).

End Outage.

(** ** More notions *)

(** [m] takes at most [c] interactions and at most [v] calls of
    [driver.get], in whatever state it starts and however it ends. *)
Definition costs {A} (c v : nat) (m : M A) : Prop :=
  forall st,
    clock st <= clock (exec m st) <= clock st + c /\
    List.length (visited st) <= List.length (visited (exec m st))
      <= List.length (visited st) + v.

Section MoreNotions.

Variable w : World.
Variable n_compilations : nat.

(** In the loop over [urls] started in [st], no posting runs out of
    attempts: each has an attempt that returns. *)
Fixpoint none_exhausted (week : string) (urls : list string) (st : state) : bool :=
  match urls with
  | [] => true
  | u :: rest =>
      negb (exhausts w u ntries (set_url u st)) &&
      none_exhausted week rest (exec (scrape_posting w n_compilations week u) st)
  end.

End MoreNotions.

(** Every posting record has seven fields and every embedded-URL
    record nine. *)
Definition well_shaped (st : state) : Prop :=
  Forall (fun r : row => List.length r = 7) (data_compilation st) /\
  Forall (fun r : row => List.length r = 9) (data_compilation_urls_inside_messages st).

(** The embedded-URL record [r] was built from the posting record [p]:
    nine fields, of which the posting id, the week and the posting URL
    are those of [p] and the fifth is a URL extracted from the last
    field of [p]. *)
Definition refers_to (w : World) (p r : row) : Prop :=
  List.length r = 9 /\
  nth_error r 0 = nth_error p 0 /\ nth_error r 2 = nth_error p 1 /\
  nth_error r 3 = nth_error p 2 /\
  exists text urls u, nth_error (rev p) 0 = Some text /\
                      extracted w text = inr urls /\ In u urls /\
                      nth_error r 4 = Some (VStr u).

(** Between [st] and [st'] the posting records are the same and the
    embedded-URL list gained records that satisfy [Q]. *)
Definition urls_grow_by (Q : row -> Prop) (st st' : state) : Prop :=
  data_compilation st' = data_compilation st /\
  exists new,
    data_compilation_urls_inside_messages st' =
      data_compilation_urls_inside_messages st ++ new /\
    Forall Q new.

(** Between [st] and [st'] the embedded-URL list is the same and the
    posting records gained records that satisfy [Q]. *)
Definition postings_grow_by (Q : row -> Prop) (st st' : state) : Prop :=
  data_compilation_urls_inside_messages st' = data_compilation_urls_inside_messages st /\
  exists new, data_compilation st' = data_compilation st ++ new /\ Forall Q new.

(** [m] leaves the two lists and the name [url] as they are. *)
Definition keeps_data {A} (m : M A) : Prop := forall st, same_data st (exec m st).

(** The name of the temporary file that [upload_file] writes and of
    the file it creates in Drive: [f"{element_id}_{file_suffix}.txt"]. *)
Definition temp_name (element_id : pyval) (file_suffix : string) : string :=
  (Storage.py_str element_id ++ "_" ++ file_suffix ++ ".txt")%string.


(** ** What the writing sends to the sheets *)

(** The ranges of lines 705 and 745. *)
Definition postings_range (n_compilations : nat) : string :=
  ("A" ++ Storage.str_nat (n_compilations + 1) ++ ":E10000000")%string.

Definition urls_range (n_urls : nat) : string :=
  ("A" ++ Storage.str_nat (n_urls + 1) ++ ":G10000000")%string.

(** The one update each sheet block asks for. *)
Definition postings_update (n_compilations : nat) (data_compilation : list row)
  : string * string * list row :=
  (Storage.spreadsheet_postings_id, postings_range n_compilations,
   map Storage.drop_last_two data_compilation).

Definition urls_update (n_urls : nat) (data_compilation_urls_inside_messages : list row)
  : string * string * list row :=
  (Storage.spreadsheet_urls_id, urls_range n_urls,
   map Storage.drop_last_two data_compilation_urls_inside_messages).

(** Lines 787 to 864: the two Drive blocks, one after the other. *)
Definition drive_phase (sv : Storage.Services)
  (data_compilation data_compilation_urls_inside_messages : list row) : Storage.SM unit :=
  Storage.sbind (Storage.drive_postings sv (seq 0 ntries) data_compilation)
    (fun _ => Storage.drive_urls sv (seq 0 ntries) data_compilation_urls_inside_messages).

(** Services whose spreadsheet refuses the first two calls. *)
Definition sheets_flaky : Storage.Services :=
  Storage.mkServices
    (fun t _ _ _ => if Nat.ltb t 2 then Some (Fault "HttpError 500") else None)
    (fun _ => None) (fun _ _ => None) (fun _ _ _ _ => None) (fun _ _ => None).

(** A posting record and an embedded-URL record, as the scraping
    leaves them. *)
Definition sample_posting : row :=
  [VInt 4; VStr "August 2024, Week 2"; VStr "https://listserv.kent.edu/p1";
   VStr "2024-08-12 10:00:00"; VBool true; VStr "<html>Assistant Professor</html>";
   VStr "Assistant Professor"].

Definition sample_url : row :=
  [VInt 4; VInt 9; VStr "August 2024, Week 2"; VStr "https://listserv.kent.edu/p1";
   VStr "https://jobs.example.edu/1"; VStr "2024-08-12 10:00:05"; VBool false;
   VStr "<html>Apply</html>"; VStr "Apply"].


(** ** The order of the posting records *)

(** What the loop over the missing compilations goes through, in its
    order: the weeks as listed and, inside a week, its posting URLs in
    document order; a week without posting URL stands for itself. *)
Definition processing_order (missing_compilations_data : list (string * list string))
  : list (string * option string) :=
  flat_map (fun c : string * list string =>
              match snd c with
              | [] => [(fst c, None)]
              | urls => map (fun u => (fst c, Some u)) urls
              end) missing_compilations_data.

(** The records of one step of that order, after [from] records: they
    share the id [n_compilations + from + 1] and the week.  A posting
    URL has one record or more, all with that URL; a week without
    posting URL has one record, with null salary, markup and text. *)
Definition records_of (n_compilations from : nat) (t : string * option string)
  (b : list row) : Prop :=
  b <> [] /\
  (forall r, In r b ->
     record_id r = Some (Z.of_nat (n_compilations + from + 1)) /\
     nth_error r 1 = Some (VStr (fst t))) /\
  match snd t with
  | Some u => forall r, In r b -> nth_error r 2 = Some (VStr u)
  | None => exists r, b = [r] /\ skipn 4 r = [VNone; VNone; VNone]
  end.

(** [records] holds the records of the steps [order], one step after
    the other, and nothing else. *)
Fixpoint laid_out (n_compilations : nat) (order : list (string * option string))
  (from : nat) (records : list row) : Prop :=
  match order with
  | [] => records = []
  | t :: rest =>
      exists b records',
        records = b ++ records' /\
        records_of n_compilations from t b /\
        laid_out n_compilations rest (from + List.length b) records'
  end.

(** ** More outsides *)

Module TwoWeeks.

Definition week1_posting : string := "https://listserv.kent.edu/cgi-bin/wa.exe?A2=0".

(** The outside of [Scenario], where Week 1 has a posting too. *)
Definition outside : World :=
  mkWorld (browse Scenario.outside) (login Scenario.outside)
          (archive_index Scenario.outside)
          (fun src =>
             if String.eqb src Scenario.week1_url
             then mkSoup ["CESNET-L"; "August 2024, Week 1"]
                         [mkAnchor (Some week1_posting) (Some "Assistant Professor, Ohio")]
             else BeautifulSoup Scenario.outside src)
          (extract_text Scenario.outside) (check_salary Scenario.outside)
          (now Scenario.outside) (fetch_rendered Scenario.outside)
          (max_attempts Scenario.outside) (extract_urls_non_text Scenario.outside).

(** The outside of [Scenario], where no embedded URL ever renders. *)
Definition no_rendering : World :=
  mkWorld (browse Scenario.outside) (login Scenario.outside)
          (archive_index Scenario.outside) (BeautifulSoup Scenario.outside)
          (extract_text Scenario.outside) (check_salary Scenario.outside)
          (now Scenario.outside) (fun _ _ => inl (Fault "timeout"))
          (max_attempts Scenario.outside) (extract_urls_non_text Scenario.outside).

(** The address of the message of a posting of [Scenario]. *)
Definition message_url : string := "https://listserv.kent.edu/cgi-bin/wa.exe?A3=msg".

End TwoWeeks.

(** Along [records] the ids never go down, and they go up between two
    records that differ in the week or in the posting URL. *)
Definition ids_follow_order (records : list row) : Prop :=
  forall i j ra rb,
    i < j -> nth_error records i = Some ra -> nth_error records j = Some rb ->
    exists ia ib,
      record_id ra = Some ia /\ record_id rb = Some ib /\ (ia <= ib)%Z /\
      (nth_error ra 1 <> nth_error rb 1 \/ nth_error ra 2 <> nth_error rb 2 ->
       (ia < ib)%Z).

(** * Properties *)

(** ** Strings and the anchor filter *)

Lemma startswith_iff (p s : string) :
  PyStr.startswith p s = true <-> exists post, s = (p ++ post)%string.
Proof.
  revert s. induction p as [|a p IH]; intros s; simpl.
  - split; [intros _; now exists s | reflexivity].
  - destruct s as [|b s].
    + split; [discriminate | intros [post H]; discriminate].
    + rewrite andb_true_iff, Ascii.eqb_eq, IH. split.
      * intros [-> [post ->]]. now exists post.
      * intros [post H]. injection H as -> ->. split; [reflexivity | now exists post].
Qed.

Lemma in_str_iff (p s : string) :
  PyStr.in_str p s = true <-> PyStr.Substring p s.
Proof.
  unfold PyStr.Substring. induction s as [|c s IH].
  - simpl. rewrite orb_false_r, startswith_iff. split.
    + intros [post H]. exists EmptyString, post. exact H.
    + intros [pre [post H]]. destruct pre; simpl in H.
      * now exists post.
      * discriminate.
  - cbn [PyStr.in_str]. rewrite orb_true_iff, startswith_iff, IH. split.
    + intros [[post H] | [pre [post H]]].
      * exists EmptyString, post. exact H.
      * exists (String c pre), post. simpl. now rewrite H.
    + intros [pre [post H]]. destruct pre as [|c' pre]; simpl in H.
      * left. now exists post.
      * right. injection H as _ H. now exists pre, post.
Qed.

Lemma contains_posting_iff (t : string) :
  contains_posting (Some t) = true <->
  exists kw, In kw posting_keywords /\ PyStr.Substring kw (PyStr.lower t).
Proof.
  unfold contains_posting, posting_keywords. split.
  - rewrite andb_true_iff, !orb_true_iff, !in_str_iff.
    intros [_ [[[H | H] | H] | H]]; eexists; (split; [|exact H]); simpl; tauto.
  - intros [kw [Hin H]]. apply in_str_iff in H.
    assert (Ht : PyStr.truthy t = true).
    { destruct t; [|reflexivity]. simpl in Hin.
      destruct Hin as [<-|[<-|[<-|[<-|[]]]]]; discriminate H. }
    rewrite Ht. simpl in Hin. simpl.
    destruct Hin as [<-|[<-|[<-|[<-|[]]]]]; rewrite H; rewrite ?orb_true_r; reflexivity.
Qed.

(** The test the comprehension of line 344 applies to one anchor. *)
Lemma keeps_iff (a : anchor) :
  match a_href a with
  | Some h => contains_posting (a_string a) && PyStr.in_str "https" h
  | None => false
  end = true <-> qualifies a.
Proof.
  unfold qualifies. destruct (a_href a) as [h|].
  - destruct (a_string a) as [t|].
    + rewrite andb_true_iff, contains_posting_iff, in_str_iff. split.
      * intros [Hk Hh]. exists h, t. auto.
      * intros (h' & t' & [= <-] & [= <-] & Hk & Hh). auto.
    + split; [discriminate | intros (h' & t' & _ & Ht & _); discriminate].
  - split; [discriminate | intros (h' & t' & Hh & _); discriminate].
Qed.

(** The three anchors of the spec's filter example. *)
Example filter_examples :
  posting_urls (mkSoup [] [mkAnchor (Some "https://x.edu/job") (Some "Assistant Professor of X");
                           mkAnchor (Some "https://x.edu/job2") (Some "click here");
                           mkAnchor (Some "http://insecure.example") (Some "Lecturer Position")])
  = ["https://x.edu/job"].
Proof. reflexivity. Qed.

(** The spec's example of URL extraction. *)
Example extract_urls_example :
  UrlExtractor.extract_urls
    "See https://example.com/job123 for details. Also http://foo.org"
  = ["https://example.com/job123"; "http://foo.org"].
Proof. reflexivity. Qed.

(** C4, as stated, fails: an anchor whose text matches and whose href
    is an http URL that merely contains the letters https is collected. *)
Lemma insecure_href_collected :
  In "http://insecure.example/https-jobs"
     (posting_urls (mkSoup [] [Scenario.insecure_anchor])) /\
  contains_posting (a_string Scenario.insecure_anchor) = true /\
  PyStr.startswith "https://" "http://insecure.example/https-jobs" = false.
Proof. repeat split. left. reflexivity. Qed.

(** C4 (amended): on a compilation page the hrefs collected are, in
    document order, those of the anchors that have an href and a string,
    whose string lowered contains one of faculty, professor, position,
    instructor, and whose href contains https as a substring. *)
Theorem posting_urls_characterised (s : soup) :
  exists keep : anchor -> bool,
    (forall a, keep a = true <-> qualifies a) /\
    posting_urls s = flat_map href_of (filter keep (anchors s)).
Proof.
  exists (fun a => match a_href a with
                   | Some h => contains_posting (a_string a) && PyStr.in_str "https" h
                   | None => false
                   end).
  split; [exact keeps_iff|].
  unfold posting_urls, find_all_a, href_of.
  induction (anchors s) as [|a l IH]; [reflexivity|].
  cbn [filter]. destruct (a_href a) as [h|] eqn:Hh; [|exact IH].
  destruct (contains_posting (a_string a)); cbn [andb].
  - cbn [flat_map]. rewrite Hh, IH.
    destruct (PyStr.in_str "https" h); cbn [flat_map]; rewrite ?Hh; reflexivity.
  - exact IH.
Qed.

Lemma posting_urls_characterised_witness :
  exists keep : anchor -> bool,
    (forall a, keep a = true <-> qualifies a) /\
    posting_urls (mkSoup [] [Scenario.insecure_anchor]) =
      flat_map href_of (filter keep [Scenario.insecure_anchor]).
Proof. exact (posting_urls_characterised (mkSoup [] [Scenario.insecure_anchor])). Defined.

(** ** The monad and the loops *)

Lemma same_data_refl st : same_data st st.
Proof. repeat split. Qed.

Lemma same_data_trans st1 st2 st3 :
  same_data st1 st2 -> same_data st2 st3 -> same_data st1 st3.
Proof.
  unfold same_data. intros (a & b & c) (d & e & f). repeat split; congruence.
Qed.

Lemma browser_only_ret {A} (a : A) : browser_only (ret a).
Proof. intros st. split; [apply same_data_refl | exact I]. Qed.

Lemma browser_only_raise {A} (e : exn) :
  is_Exception e = true -> browser_only (@raise A e).
Proof. intros He st. split; [apply same_data_refl | exact He]. Qed.

Lemma browser_only_bind {A B} (m : M A) (k : A -> M B) :
  browser_only m -> (forall a, browser_only (k a)) -> browser_only (bind m k).
Proof.
  intros Hm Hk st. specialize (Hm st). unfold exec, outcome, bind in *.
  destruct (m st) as [[a|e] st1]; simpl in *.
  - destruct Hm as [Hs _]. specialize (Hk a st1). destruct Hk as [Hs' He].
    split; [eapply same_data_trans; eassumption | exact He].
  - exact Hm.
Qed.

Lemma browser_only_try {A} (m : M A) (c : exn -> bool) (h : exn -> M A) :
  browser_only m -> (forall e, browser_only (h e)) -> browser_only (try_except m c h).
Proof.
  intros Hm Hh st. specialize (Hm st). unfold exec, outcome, try_except in *.
  destruct (m st) as [[a|e] st1]; simpl in *.
  - exact Hm.
  - destruct (c e).
    + destruct Hm as [Hs _]. specialize (Hh e st1). destruct Hh as [Hs' He].
      split; [eapply same_data_trans; eassumption | exact He].
    + exact Hm.
Qed.

Lemma browser_only_call {A} (r : fault + A) : browser_only (call r).
Proof.
  destruct r; simpl; [apply browser_only_raise; reflexivity | apply browser_only_ret].
Qed.

Lemma browser_only_subscript_href a : browser_only (subscript_href a).
Proof.
  destruct a as [[[h|] s]|]; simpl;
    first [apply browser_only_ret | apply browser_only_raise; reflexivity].
Qed.

Lemma browser_only_page_source : browser_only driver_page_source.
Proof. intros st. split; [apply same_data_refl | exact I]. Qed.

Lemma for_each_app {A} (f : A -> M unit) (l1 l2 : list A) (st : state) :
  for_each f (l1 ++ l2) st = (for_each f l1 ;; for_each f l2) st.
Proof.
  revert st. induction l1 as [|x l1 IH]; intros st.
  - reflexivity.
  - cbn [for_each app]. unfold bind in *.
    destruct (f x st) as [[[]|e] st1]; [|reflexivity].
    rewrite IH. reflexivity.
Qed.

Lemma appended_app before after new :
  data_compilation after = data_compilation before ++ new ->
  appended before after = new.
Proof.
  unfold appended. intros ->. rewrite skipn_app, skipn_all, Nat.sub_diag. reflexivity.
Qed.

Lemma first_cells_cells cells st :
  first_cells (map (fun c => [c]) cells) st = (Ret cells, st).
Proof.
  induction cells as [|c cells IH]; [reflexivity|].
  cbn [map first_cells]. unfold bind. simpl. rewrite IH. reflexivity.
Qed.

Lemma extends_contiguously_refl n st st' :
  data_compilation_urls_inside_messages st' = data_compilation_urls_inside_messages st ->
  extends_contiguously n st st'.
Proof.
  intros H. exists []. rewrite app_nil_r. split; [exact H|].
  intros i r Hi. destruct i; discriminate.
Qed.

Lemma extends_contiguously_trans n st1 st2 st3 :
  extends_contiguously n st1 st2 -> extends_contiguously n st2 st3 ->
  extends_contiguously n st1 st3.
Proof.
  intros (new1 & E1 & C1) (new2 & E2 & C2). exists (new1 ++ new2). split.
  - rewrite E2, E1, app_assoc. reflexivity.
  - intros i r Hi. destruct (Nat.lt_ge_cases i (List.length new1)) as [Hlt|Hge].
    + rewrite nth_error_app1 in Hi by exact Hlt. apply C1. exact Hi.
    + rewrite nth_error_app2 in Hi by exact Hge. apply C2 in Hi. rewrite Hi.
      rewrite E1, length_app. do 3 f_equal. lia.
Qed.

(** A loop whose every iteration extends the list contiguously does so
    as a whole, also when an iteration raises and ends it. *)
Lemma for_each_extends {A} n (f : A -> M unit) :
  (forall x st, extends_contiguously n st (exec (f x) st)) ->
  forall l st, extends_contiguously n st (exec (for_each f l) st).
Proof.
  intros Hf. induction l as [|x l IH]; intros st.
  - apply extends_contiguously_refl. reflexivity.
  - cbn [for_each]. unfold exec, bind. specialize (Hf x st). unfold exec in Hf.
    destruct (f x st) as [[[]|e] st1]; simpl in *.
    + eapply extends_contiguously_trans; [exact Hf | apply IH].
    + exact Hf.
Qed.

Create HintDb browser.
#[export] Hint Resolve browser_only_ret browser_only_bind browser_only_try
  browser_only_call browser_only_subscript_href browser_only_page_source : browser.

(** Splits a sequence of statements that each touch the browser only. *)
Ltac browser_steps :=
  repeat (apply browser_only_bind; [auto with browser | intros ?]);
  auto with browser.

Section Facts.

Variable w : World.

(** ** One attempt at a posting touches the browser only *)

Lemma browser_only_driver_get u : browser_only (driver_get w u).
Proof.
  intros st. unfold exec, outcome, driver_get.
  destruct (browse w (clock st) u); simpl; repeat split.
Qed.

Lemma browser_only_login : browser_only (login_cesnet w).
Proof.
  intros st. unfold exec, outcome, login_cesnet.
  destruct (login w (clock st)); simpl; repeat split.
Qed.

#[local] Hint Resolve browser_only_driver_get browser_only_login : browser.

Lemma browser_only_visit u : browser_only (visit w u).
Proof.
  unfold visit. apply browser_only_bind; auto with browser. intros _.
  apply browser_only_bind; auto with browser. intros src.
  apply browser_only_bind; auto with browser.
  destruct (check_login_required src); auto with browser.
Qed.

#[local] Hint Resolve browser_only_visit : browser.

Lemma browser_only_message_tier f s : browser_only (message_tier w f s).
Proof. unfold message_tier. browser_steps. Qed.

#[local] Hint Resolve browser_only_message_tier : browser.

Lemma browser_only_posting_attempt u : browser_only (posting_attempt w u).
Proof. unfold posting_attempt, message_lookup. browser_steps. Qed.

(** ** The second re-try block *)

(** The loop over what is left of [range(ntries)] returns
    [data_posting] with three more fields: the message's, when an
    attempt succeeds, with [data_compilation] untouched; or the
    sentinels, when all attempts raise, and then [data_posting] is
    already in [data_compilation]. *)
Lemma second_block_seq u k : forall a dp st,
  a + k = ntries ->
  exists dp' st',
    second_block w (seq a k) u dp st = (Ret dp', st') /\
    url_binding st' = url_binding st /\
    data_compilation_urls_inside_messages st' = data_compilation_urls_inside_messages st /\
    ((exhausts w u k st = false /\ data_compilation st' = data_compilation st /\
      exists x y z, dp' = dp ++ [x; VStr y; VStr z])
     \/ (exhausts w u k st = true /\ 0 < k /\ dp' = dp ++ failure_tail /\
         data_compilation st' = data_compilation st ++ [dp'])
     \/ (k = 0 /\ dp' = dp /\ data_compilation st' = data_compilation st)).
Proof.
  induction k as [|k IH]; intros a dp st Hak.
  - exists dp, st. simpl. repeat split. right. right. repeat split.
  - cbn [seq second_block exhausts]. unfold try_except, bind.
    pose proof (browser_only_posting_attempt u st) as [Hs He].
    unfold exec, outcome in Hs, He.
    destruct (posting_attempt w u st) as [[[[x y] z]|e] st1]; simpl in Hs, He.
    + exists (dp ++ [x; VStr y; VStr z]), st1. destruct Hs as (H1 & H2 & H3).
      unfold ret. repeat split; auto. left. repeat split; auto. now exists x, y, z.
    + rewrite He. destruct Hs as (H1 & H2 & H3).
      destruct (Nat.ltb_spec a (ntries - 1)) as [Hlt|Hge].
      * destruct (IH (S a) dp st1 ltac:(lia)) as (dp' & st' & Hrun & Hu & Hm & Hc).
        exists dp', st'. rewrite Hrun. repeat split; try congruence.
        unfold ntries in *.
        destruct Hc as [(Hx & Hd & Hdp) | [(Hx & Hk & Hdp & Hd) | (Hk & _)]].
        -- left. repeat split; auto; congruence.
        -- right. left. repeat split; auto; try lia; congruence.
        -- lia.
      * assert (k = 0) by (unfold ntries in *; lia). subst k.
        exists (dp ++ failure_tail),
          (set_data_compilation (data_compilation st1 ++ [dp ++ failure_tail]) st1).
        simpl. unfold data_compilation_append, ret. simpl.
        repeat split; auto. right. left. repeat split; auto; try lia.
        now rewrite H2.
Qed.

Section Postings.

Variable n_compilations : nat.

(** One posting: it never raises, binds [url], and appends one record
    when an attempt succeeds and the same record twice when all fail. *)
Lemma scrape_posting_spec week u st :
  exists st',
    scrape_posting w n_compilations week u st = (Ret tt, st') /\
    url_binding st' = Some u /\
    data_compilation_urls_inside_messages st' = data_compilation_urls_inside_messages st /\
    ((exhausts w u ntries (set_url u st) = false /\
      exists x y z, data_compilation st' =
        data_compilation st ++ [posting_head w n_compilations week u st ++ [x; VStr y; VStr z]])
     \/ (exhausts w u ntries (set_url u st) = true /\
         data_compilation st' =
           data_compilation st ++ [posting_head w n_compilations week u st ++ failure_tail;
                                   posting_head w n_compilations week u st ++ failure_tail])).
Proof.
  unfold scrape_posting, bind, bind_url, len_data_compilation, datetime_now.
  destruct (second_block_seq u ntries 0 (posting_head w n_compilations week u st)
                             (set_url u st) eq_refl)
    as (dp' & st' & Hrun & Hu & Hm & Hc).
  unfold posting_head in *. simpl in *. rewrite Hrun.
  eexists. split; [reflexivity|]. simpl. repeat split; auto.
  destruct Hc as [(Hx & Hd & x & y & z & Hdp) | [(Hx & Hk & Hdp & Hd) | (Hk & _)]].
  - left. split; [exact Hx|]. exists x, y, z. rewrite Hd, Hdp. reflexivity.
  - right. split; [exact Hx|]. rewrite Hd, Hdp. simpl. rewrite <- app_assoc. reflexivity.
  - discriminate.
Qed.

Lemma scrape_posting_appended week u st :
  exists st' new,
    scrape_posting w n_compilations week u st = (Ret tt, st') /\
    data_compilation st' = data_compilation st ++ new /\
    new <> [] /\
    forall r, In r new ->
      record_id r = Some (Z.of_nat (n_compilations + List.length (data_compilation st) + 1)) /\
      nth_error r 1 = Some (VStr week) /\ nth_error r 2 = Some (VStr u).
Proof.
  destruct (scrape_posting_spec week u st) as (st1 & Hrun & _ & _ & Hc).
  destruct Hc as [(_ & x & y & z & Hd) | (_ & Hd)]; eexists; eexists;
    (split; [exact Hrun|]); (split; [exact Hd|]); (split; [discriminate|]);
    intros r Hr; simpl in Hr; intuition (subst; reflexivity).
Qed.

(** X12: a posting whose attempts all raise is stored twice under one
    id, and the posting after it gets that id plus two. *)
Lemma exhausted_posting_repeats_id week u st :
  exhausts w u ntries (set_url u st) = true ->
  map record_id (appended st (exec (scrape_posting w n_compilations week u) st)) =
    [Some (Z.of_nat (n_compilations + List.length (data_compilation st) + 1));
     Some (Z.of_nat (n_compilations + List.length (data_compilation st) + 1))] /\
  forall u' r,
    In r (appended (exec (scrape_posting w n_compilations week u) st)
                   (exec (scrape_posting w n_compilations week u ;;
                          scrape_posting w n_compilations week u') st)) ->
    record_id r = Some (Z.of_nat (n_compilations + List.length (data_compilation st) + 3)).
Proof.
  intros Hx.
  destruct (scrape_posting_spec week u st) as (st1 & Hrun & _ & _ & Hc).
  destruct Hc as [(Hx' & _) | (_ & Hd)]; [congruence|].
  unfold exec, bind. rewrite Hrun. cbn [snd]. split.
  - rewrite (appended_app _ _ _ Hd). reflexivity.
  - intros u' r.
    destruct (scrape_posting_appended week u' st1)
      as (st2 & new & Hrun2 & Hd2 & _ & Hid).
    rewrite Hrun2. cbn [snd]. rewrite (appended_app _ _ _ Hd2). intros Hr.
    destruct (Hid r Hr) as [-> _]. rewrite Hd, length_app. simpl. do 2 f_equal. lia.
Qed.

(** The loop over a week's URLs: it never raises, [data_compilation]
    only grows, every URL gets a record, and [url] is left bound to the
    last URL. *)
Lemma for_each_postings_spec week urls : forall st,
  exists st' new,
    for_each (scrape_posting w n_compilations week) urls st = (Ret tt, st') /\
    data_compilation_urls_inside_messages st' = data_compilation_urls_inside_messages st /\
    data_compilation st' = data_compilation st ++ new /\
    (urls <> [] -> url_binding st' = Some (last urls "")) /\
    (forall u, In u urls -> exists r, In r new /\ nth_error r 2 = Some (VStr u)).
Proof.
  induction urls as [|u urls IH]; intros st.
  - exists st, []. simpl. rewrite app_nil_r. repeat split; auto; try tauto.
  - destruct (scrape_posting_spec week u st) as (st1 & Hrun & Hu & Hm & Hc).
    destruct (IH st1) as (st2 & new2 & Hrun2 & Hm2 & Hd2 & Hl2 & Hin2).
    assert (Hnew : exists new1 r, data_compilation st1 = data_compilation st ++ new1 /\
                     In r new1 /\ nth_error r 2 = Some (VStr u)).
    { destruct Hc as [(_ & x & y & z & Hd) | (_ & Hd)]; eexists; eexists;
        (split; [exact Hd|]); split;
        [left; reflexivity | reflexivity | left; reflexivity | reflexivity]. }
    destruct Hnew as (new1 & r & Hd1 & Hr1 & Hr2).
    exists st2, (new1 ++ new2). cbn [for_each]. unfold bind. rewrite Hrun, Hrun2.
    repeat split.
    + congruence.
    + rewrite Hd2, Hd1, app_assoc. reflexivity.
    + intros _. destruct urls as [|u' urls'].
      * simpl in Hrun2. injection Hrun2 as <-. exact Hu.
      * change (last (u :: u' :: urls') "") with (last (u' :: urls') "").
        apply Hl2. discriminate.
    + intros u0 [<- | Hin].
      * exists r. split; [apply in_or_app; now left | exact Hr2].
      * destruct (Hin2 u0 Hin) as (r' & Hr' & Hr''). exists r'.
        split; [apply in_or_app; now right | exact Hr''].
Qed.

(** Document order within a week: the records of a URL have a smaller
    id than those of any URL after it. *)
Lemma order_within_week week pre a mid b post st :
  let step := scrape_posting w n_compilations week in
  let st1 := exec (for_each step pre) st in
  let st2 := exec (step a) st1 in
  let st3 := exec (for_each step mid) st2 in
  let st4 := exec (step b) st3 in
  for_each step (pre ++ a :: mid ++ b :: post) st = for_each step post st4 /\
  appended st1 st2 <> [] /\ appended st3 st4 <> [] /\
  forall ra rb, In ra (appended st1 st2) -> In rb (appended st3 st4) ->
    nth_error ra 2 = Some (VStr a) /\ nth_error rb 2 = Some (VStr b) /\
    exists ia ib, record_id ra = Some ia /\ record_id rb = Some ib /\ (ia < ib)%Z.
Proof.
  intros step st1 st2 st3 st4.
  destruct (for_each_postings_spec week pre st) as (s1 & n1 & R1 & _ & D1 & _).
  destruct (scrape_posting_appended week a s1) as (s2 & n2 & R2 & D2 & N2 & P2).
  destruct (for_each_postings_spec week mid s2) as (s3 & n3 & R3 & _ & D3 & _).
  destruct (scrape_posting_appended week b s3) as (s4 & n4 & R4 & D4 & N4 & P4).
  assert (E1 : st1 = s1) by (subst st1 step; unfold exec; now rewrite R1).
  assert (E2 : st2 = s2) by (subst st2 step; unfold exec; now rewrite E1, R2).
  assert (E3 : st3 = s3) by (subst st3 step; unfold exec; now rewrite E2, R3).
  assert (E4 : st4 = s4) by (subst st4 step; unfold exec; now rewrite E3, R4).
  rewrite E1, E2, E3, E4. clear E1 E2 E3 E4 st1 st2 st3 st4.
  rewrite (appended_app _ _ _ D2), (appended_app _ _ _ D4).
  repeat split; auto.
  - subst step. rewrite for_each_app. unfold bind. rewrite R1.
    cbn [for_each]. unfold bind. rewrite R2.
    rewrite for_each_app. unfold bind. rewrite R3.
    cbn [for_each]. unfold bind. rewrite R4. reflexivity.
  - apply (P2 ra H).
  - apply (P4 rb H0).
  - destruct (P2 ra H) as (Ia & _). destruct (P4 rb H0) as (Ib & _).
    eexists; eexists. split; [exact Ia|]. split; [exact Ib|].
    rewrite D3, D2, !length_app.
    assert (0 < List.length n2) by (destruct n2; [congruence | simpl; lia]).
    lia.
Qed.


(** C10: when the first week processed has no posting URL and [url]
    has not been bound, the empty-week branch raises NameError on
    reading [url]; no record is appended and the later weeks are not
    processed. *)
Theorem empty_first_week_faults week rest st :
  url_binding st = None ->
  scrape_messages w n_compilations ((week, []) :: rest) st = (Raise (NameError "url"), st).
Proof.
  intros Hu. unfold scrape_messages. cbn [for_each].
  unfold scrape_missing_compilation. simpl.
  unfold bind, len_data_compilation, read_url. rewrite Hu. reflexivity.
Qed.

End Postings.

(** ** The first re-try block *)

Section Differ.

Variables last_compilation_collected previous_to_last_compilation_collected : string.

Lemma open_archive_run st :
  open_archive w st =
    (match archive_index w (clock st) with
     | inr lis => Ret lis
     | inl f => Raise (External f)
     end,
     set_browser (S (clock st)) (page_source st) (visited st ++ [url_login]) st).
Proof. unfold open_archive. destruct (archive_index w (clock st)); reflexivity. Qed.

Lemma first_block_body_exits st lis li1 li2 :
  archive_index w (clock st) = inr lis ->
  nth_error lis 1 = Some li1 -> nth_error lis 2 = Some li2 ->
  li_text li1 = last_compilation_collected ->
  li_text li2 = previous_to_last_compilation_collected ->
  first_block_body w last_compilation_collected previous_to_last_compilation_collected st =
    (Raise SystemExit,
     set_browser (S (clock st)) (page_source st) (visited st ++ [url_login]) st).
Proof.
  intros Ha H1 H2 T1 T2. unfold first_block_body, bind. rewrite open_archive_run, Ha.
  unfold subscript. rewrite !nth_error_map, H1, H2. simpl. unfold ret.
  rewrite T1, T2, !String.eqb_refl. reflexivity.
Qed.

Lemma first_block_body_index_fault st f :
  archive_index w (clock st) = inl f ->
  first_block_body w last_compilation_collected previous_to_last_compilation_collected st =
    (Raise (External f),
     set_browser (S (clock st)) (page_source st) (visited st ++ [url_login]) st).
Proof.
  intros Ha. unfold first_block_body, bind. rewrite open_archive_run, Ha. reflexivity.
Qed.

(** After [k] attempts that fail on the index, an attempt that reads
    the two known labels leaves through [sys.exit()]; the browser has
    only been to the login page. *)
Lemma first_block_noop lis li1 li2 :
  nth_error lis 1 = Some li1 -> nth_error lis 2 = Some li2 ->
  li_text li1 = last_compilation_collected ->
  li_text li2 = previous_to_last_compilation_collected ->
  forall k a st,
    a + k < ntries ->
    (forall j, j < k -> exists f, archive_index w (clock st + j) = inl f) ->
    archive_index w (clock st + k) = inr lis ->
    first_block w last_compilation_collected previous_to_last_compilation_collected
                (seq a (ntries - a)) st =
      (Raise SystemExit,
       set_browser (clock st + S k) (page_source st)
                   (visited st ++ repeat url_login (S k)) st).
Proof.
  intros H1 H2 T1 T2. induction k as [|k IH]; intros a st Hak Hfail Hok.
  - replace (ntries - a) with (S (ntries - S a)) by lia.
    cbn [seq first_block]. unfold try_except.
    rewrite Nat.add_0_r in Hok.
    rewrite (first_block_body_exits st lis li1 li2) by assumption.
    simpl. rewrite Nat.add_1_r. reflexivity.
  - replace (ntries - a) with (S (ntries - S a)) by lia.
    cbn [seq first_block]. unfold try_except.
    destruct (Hfail 0 ltac:(lia)) as [f Hf]. rewrite Nat.add_0_r in Hf.
    rewrite (first_block_body_index_fault st f Hf). cbn [is_Exception].
    destruct (Nat.ltb_spec a (ntries - 1)) as [_|Hge]; [|unfold ntries in *; lia].
    rewrite IH.
    + unfold set_browser. simpl. f_equal. f_equal.
      * lia.
      * rewrite <- app_assoc. reflexivity.
    + lia.
    + intros j Hj. simpl. destruct (Hfail (S j) ltac:(lia)) as [f' Hf'].
      exists f'. rewrite <- Hf'. f_equal. lia.
    + simpl. rewrite <- Hok. f_equal. lia.
Qed.

Lemma first_block_body_ret st mcd st' :
  first_block_body w last_compilation_collected previous_to_last_compilation_collected st
    = (Ret mcd, st') ->
  oldest_first w last_compilation_collected st mcd st'.
Proof.
  unfold first_block_body, bind, oldest_first, exec. rewrite open_archive_run. cbn [snd].
  destruct (archive_index w (clock st)) as [f|lis]; [discriminate|].
  unfold subscript. rewrite !nth_error_map.
  destruct (nth_error lis 1) as [li1|] eqn:N1; [|discriminate].
  destruct (nth_error lis 2) as [li2|] eqn:N2; [|discriminate].
  cbn [option_map]. unfold ret, raise. cbv beta iota.
  destruct (String.eqb (li_text li1) last_compilation_collected &&
            String.eqb (li_text li2) previous_to_last_compilation_collected);
    [discriminate|].
  unfold subscript_href_li.
  destruct (li_a_href li1) as [up|] eqn:A1; [|discriminate].
  destruct (li_a_href li2) as [upp|] eqn:A2; [|discriminate].
  unfold ret, raise. cbv beta iota.
  set (st0 := set_browser _ _ _ _).
  destruct (String.eqb (li_text li2) last_compilation_collected) eqn:E2;
    cbv beta iota delta [negb].
  - destruct (String.eqb (li_text li1) last_compilation_collected) eqn:E1;
      cbv beta iota delta [negb].
    + intros [= <- <-]. exists lis, li1, li2, up, upp, st0, [], [].
      rewrite E1, E2. repeat split; assumption.
    + destruct (scrape_compilation w up st0) as [[c|e] s2] eqn:R2; [|discriminate].
      intros [= <- <-]. exists lis, li1, li2, up, upp, st0, [], [c].
      rewrite E1, E2. repeat split; try assumption. now exists c.
  - destruct (scrape_compilation w upp st0) as [[c1|e] s1] eqn:R1; [|discriminate].
    destruct (String.eqb (li_text li1) last_compilation_collected) eqn:E1;
      cbv beta iota delta [negb].
    + intros [= <- <-]. exists lis, li1, li2, up, upp, s1, [c1], [].
      rewrite E1, E2. repeat split; try assumption. now exists c1.
    + destruct (scrape_compilation w up s1) as [[c2|e] s2] eqn:R2; [|discriminate].
      intros [= <- <-]. exists lis, li1, li2, up, upp, s1, [c1], [c2].
      rewrite E1, E2. repeat split; try assumption; [now exists c1 | now exists c2].
Qed.

(** What the first block returns is what its last attempt returned. *)
Lemma first_block_ret attempts : forall st mcd st',
  first_block w last_compilation_collected previous_to_last_compilation_collected
              attempts st = (Ret mcd, st') ->
  exists s,
    first_block_body w last_compilation_collected previous_to_last_compilation_collected s
      = (Ret mcd, st').
Proof.
  induction attempts as [|a rest IH]; intros st mcd st'.
  - discriminate.
  - cbn [first_block]. unfold try_except.
    destruct (first_block_body w last_compilation_collected
                previous_to_last_compilation_collected st) as [[m|e] s1] eqn:R.
    + intros [= <- <-]. now exists st.
    + destruct (is_Exception e); [|discriminate].
      destruct (Nat.ltb a (ntries - 1)); [apply IH | discriminate].
Qed.

End Differ.

(** C5: when the archive's second and third entries carry the last two
    week labels of the ledger, the script leaves through [sys.exit()]
    with status 0, both record lists are empty, and the browser has
    been to the login page only: no compilation was opened.  The index
    may have failed to load on [k] earlier attempts. *)
Theorem noop_when_nothing_new cells ws last prev n_urls lis li1 li2 k :
  dict_fromkeys cells = ws ++ [prev; last] ->
  k < ntries ->
  (forall j, j < k -> exists f, archive_index w j = inl f) ->
  archive_index w k = inr lis ->
  nth_error lis 1 = Some li1 -> nth_error lis 2 = Some li2 ->
  li_text li1 = last -> li_text li2 = prev ->
  exists st',
    script w (map (fun c => [c]) cells) n_urls initial_state = (Raise SystemExit, st') /\
    exit_code (outcome (script w (map (fun c => [c]) cells) n_urls) initial_state) = 0%Z /\
    data_compilation st' = [] /\
    data_compilation_urls_inside_messages st' = [] /\
    visited st' = repeat url_login (S k).
Proof.
  intros Hw Hk Hfail Hok H1 H2 T1 T2.
  assert (Hrun : script w (map (fun c => [c]) cells) n_urls initial_state =
                 (Raise SystemExit,
                  set_browser (S k) "" (repeat url_login (S k)) initial_state)).
  { unfold script, bind. rewrite first_cells_cells, Hw.
    unfold subscript_from_end, subscript. rewrite rev_app_distr.
    cbn [rev app nth_error]. unfold ret.
    change (seq 0 ntries) with (seq 0 (ntries - 0)).
    rewrite (first_block_noop last prev lis li1 li2 H1 H2 T1 T2 k 0 initial_state);
      auto. }
  eexists. split; [exact Hrun|]. unfold outcome. rewrite Hrun. repeat split.
Qed.

(** ** The message lookup *)

(** C3 (amended): the HTML tier is entered exactly when the plain-text
    tier raises, whatever raised: the link being absent (a TypeError),
    the message page failing to load, or the text extraction failing.
    What reaches the outer re-try loop is a fault of the posting page
    or of the HTML tier. *)
Theorem tier_fallback_on_any_fault soup_posting st :
  message_lookup w soup_posting st =
    match message_tier w contains_plain_text soup_posting st with
    | (Ret x, st1) => (Ret x, st1)
    | (Raise _, st1) => message_tier w contains_html soup_posting st1
    end
  /\ (find_a contains_plain_text soup_posting = None ->
      outcome (message_tier w contains_plain_text soup_posting) st = Raise TypeError)
  /\ (forall a h f,
        find_a contains_plain_text soup_posting = Some a -> a_href a = Some h ->
        browse w (clock st) (url_base ++ h)%string = inl f ->
        outcome (message_tier w contains_plain_text soup_posting) st = Raise (External f))
  /\ (forall a h src st1 f,
        find_a contains_plain_text soup_posting = Some a -> a_href a = Some h ->
        visit w (url_base ++ h)%string st = (Ret src, st1) ->
        extract_text w src = inl f ->
        outcome (message_tier w contains_plain_text soup_posting) st = Raise (External f))
  /\ (forall u,
        posting_attempt w u st =
          match visit w u st with
          | (Ret src, st1) => message_lookup w (BeautifulSoup w src) st1
          | (Raise e, st1) => (Raise e, st1)
          end).
Proof.
  split; [|split; [|split; [|split]]].
  - unfold message_lookup, try_except.
    destruct (message_tier w contains_plain_text soup_posting st) as [[x|e] st1];
      reflexivity.
  - intros Hf. unfold outcome, message_tier, bind. rewrite Hf. reflexivity.
  - intros a h f Hf Hh Hb. unfold outcome, message_tier, bind. rewrite Hf.
    unfold subscript_href. rewrite Hh. unfold ret, visit, bind, driver_get.
    rewrite Hb. reflexivity.
  - intros a h src st1 f Hf Hh Hv He. unfold outcome, message_tier, bind.
    rewrite Hf. unfold subscript_href. rewrite Hh. unfold ret. rewrite Hv, He.
    reflexivity.
  - intros u. unfold posting_attempt, bind.
    destruct (visit w u st) as [[src|e] st1]; reflexivity.
Qed.

(** ** The URLs inside the messages *)

Section Embedded.

Variable n_urls : nat.

Lemma set_clock_set_clock t t' st : set_clock t (set_clock t' st) = set_clock t st.
Proof. reflexivity. Qed.

(** The call of the extractor leaves the state alone. *)
Lemma extract_urls_run text st :
  extract_urls w text st =
    match extracted w text with
    | inr urls => (Ret urls, st)
    | inl f => (Raise (External f), st)
    end.
Proof. unfold extract_urls, call. destruct (extracted w text); reflexivity. Qed.

(** When the first attempt and the [r] that may follow all fault, the
    executor has made [r + 1] attempts and raises the last fault. *)
Lemma execute_retrying_exhausted u : forall r f st,
  (forall k, k <= r -> fetch_rendered w (clock st + k) u = inl (f k)) ->
  execute_retrying (fetch w u) r st =
    (Raise (External (f r)), set_clock (clock st + S r) st).
Proof.
  induction r as [|r IH]; intros f st Hf.
  - simpl. unfold fetch. rewrite <- (Nat.add_0_r (clock st)) at 1.
    rewrite (Hf 0 (le_n 0)). rewrite Nat.add_1_r. reflexivity.
  - cbn [execute_retrying]. unfold try_except. unfold fetch at 1.
    rewrite <- (Nat.add_0_r (clock st)) at 1. rewrite (Hf 0 ltac:(lia)).
    cbn [is_Exception].
    rewrite (IH (fun k => f (S k))).
    + rewrite set_clock_set_clock. simpl. do 2 f_equal. lia.
    + intros k Hk. simpl. rewrite <- (Hf (S k) ltac:(lia)). f_equal. lia.
Qed.

(** The re-try of a fetch changes the clock only. *)
Lemma execute_retrying_clock_only u r : forall st,
  exists t, exec (execute_retrying (fetch w u) r) st = set_clock t st.
Proof.
  induction r as [|r IH]; intros st.
  - simpl. unfold exec, fetch.
    destruct (fetch_rendered w (clock st) u); eexists; reflexivity.
  - cbn [execute_retrying]. unfold exec, try_except, fetch at 1.
    destruct (fetch_rendered w (clock st) u) as [f|src]; cbn [snd is_Exception].
    + destruct (IH (set_clock (S (clock st)) st)) as [t Ht]. unfold exec in Ht.
      rewrite Ht. exists t. reflexivity.
    + eexists; reflexivity.
Qed.

Lemma scrape_url_in_message_extends p u st :
  extends_contiguously n_urls st (exec (scrape_url_in_message w n_urls p u) st).
Proof.
  unfold scrape_url_in_message, exec, bind, subscript.
  destruct (nth_error p 0) as [x0|]; [|apply extends_contiguously_refl; reflexivity].
  unfold ret at 1. unfold len_urls_inside_messages.
  destruct (nth_error p 1) as [x1|]; [|apply extends_contiguously_refl; reflexivity].
  unfold ret at 1.
  destruct (nth_error p 2) as [x2|]; [|apply extends_contiguously_refl; reflexivity].
  unfold ret at 1. unfold datetime_now.
  destruct (execute_retrying_clock_only u (max_attempts w - 1) st) as [t Ht].
  unfold get_selenium_response, execute. unfold exec in Ht.
  destruct (execute_retrying (fetch w u) (max_attempts w - 1) st) as [[src|e] st1];
    simpl in Ht; subst st1; [|apply extends_contiguously_refl; reflexivity].
  destruct (extract_text w src) as [f|text]; cbn [call raise ret];
    [apply extends_contiguously_refl; reflexivity|].
  destruct (check_salary w text) as [f|flag]; cbn [call raise ret];
    [apply extends_contiguously_refl; reflexivity|].
  unfold urls_inside_messages_append. cbn [snd].
  eexists. split; [reflexivity|].
  intros i r Hi. destruct i as [|[|i]]; [|discriminate|discriminate].
  injection Hi as <-. simpl. do 3 f_equal. lia.
Qed.

(** X13: whatever the postings and however the phase ends, the
    embedded-URL records it appends carry the ids [n_urls + 1],
    [n_urls + 2], ... in order, without gap or repeat. *)
Lemma embedded_ids_contiguous ps st :
  extends_contiguously n_urls st
    (exec (for_each (scrape_urls_inside_message w n_urls) ps) st).
Proof.
  apply for_each_extends. intros p s.
  unfold scrape_urls_inside_message, exec, bind.
  destruct (subscript_from_end p 1 s) as [[text|e] s1] eqn:E.
  - assert (s1 = s).
    { unfold subscript_from_end, subscript in E.
      destruct (nth_error (rev p) 0); inversion E; reflexivity. }
    subst s1. rewrite extract_urls_run.
    destruct (extracted w text) as [f|urls]; [apply extends_contiguously_refl; reflexivity|].
    apply (for_each_extends n_urls (scrape_url_in_message w n_urls p)
             (scrape_url_in_message_extends p)).
  - apply extends_contiguously_refl.
    unfold subscript_from_end, subscript in E.
    destruct (nth_error (rev p) 0); inversion E; reflexivity.
Qed.

End Embedded.

End Facts.

(** ** The script on the concrete outside *)

Import Scenario.

(** C1: on a ledger of three rows, with a week whose first posting
    never loads, the posting records get the ids 4, 4, 6 and not 4, 5:
    the record of the failed posting is stored twice (lines 602 and
    606) under one id, and the next id skips one.  The ids of the
    embedded-URL records continue from their own ledger. *)
Theorem duplicate_id_after_exhaustion :
  outcome (script outside ledger_week1 5) initial_state = Ret tt /\
  map record_id (data_compilation (exec (script outside ledger_week1 5) initial_state))
  = [Some 4%Z; Some 4%Z; Some 6%Z] /\
  map (fun r => nth_error r 1)
      (data_compilation_urls_inside_messages
         (exec (script outside ledger_week1 5) initial_state))
  = [Some (VInt 6)].
Proof. vm_compute. repeat split. Qed.


(** C3, as stated, fails: the posting page has a plain-text link, the
    plain-text message fails to load, and the attempt returns the HTML
    message instead of raising to the outer re-try loop. *)
Lemma fetch_fault_takes_html_tier :
  find_a contains_plain_text two_part_page <> None /\
  outcome (message_tier outside contains_plain_text two_part_page) initial_state
    = Raise (External (Fault "timeout")) /\
  outcome (posting_attempt outside two_part_posting) initial_state
    = Ret (VBool false,
           "https://listserv.kent.edu/cgi-bin/wa.exe?A3=html",
           "text of https://listserv.kent.edu/cgi-bin/wa.exe?A3=html").
Proof. repeat split. discriminate. Qed.

Lemma tier_fallback_witness :
  message_lookup outside two_part_page initial_state =
    match message_tier outside contains_plain_text two_part_page initial_state with
    | (Ret x, st1) => (Ret x, st1)
    | (Raise _, st1) => message_tier outside contains_html two_part_page st1
    end.
Proof. exact (proj1 (tier_fallback_on_any_fault outside two_part_page initial_state)). Defined.

Lemma noop_when_nothing_new_witness :
  exists st',
    script outside (map (fun c => [c]) ledger_august) 5 initial_state
      = (Raise SystemExit, st') /\
    exit_code (outcome (script outside (map (fun c => [c]) ledger_august) 5) initial_state)
      = 0%Z /\
    data_compilation st' = [] /\
    data_compilation_urls_inside_messages st' = [] /\
    visited st' = repeat url_login 1.
Proof.
  apply (noop_when_nothing_new outside ledger_august ["July 2024, Week 4"]
           "August 2024, Week 2" "August 2024, Week 1" 5
           [mkLi "August 2024, Week 3"
                 (Some "https://listserv.kent.edu/cgi-bin/wa.exe?A1=week3");
            mkLi "August 2024, Week 2" (Some week2_url);
            mkLi "August 2024, Week 1" (Some week1_url)]
           (mkLi "August 2024, Week 2" (Some week2_url))
           (mkLi "August 2024, Week 1" (Some week1_url)) 0).
  - reflexivity.
  - unfold ntries. lia.
  - intros j Hj. lia.
  - reflexivity.
  - reflexivity.
  - reflexivity.
  - reflexivity.
  - reflexivity.
Defined.

Lemma empty_first_week_faults_witness :
  scrape_messages outside 3
    [("August 2024, Week 1", []);
     ("August 2024, Week 2", [unreachable_posting; plain_posting])] initial_state
  = (Raise (NameError "url"), initial_state).
Proof.
  apply (empty_first_week_faults outside 3 "August 2024, Week 1"
           [("August 2024, Week 2", [unreachable_posting; plain_posting])] initial_state).
  reflexivity.
Defined.

(** * Further properties *)

(** ** Reading the ledger (lines 201 to 219) *)

Lemma existsb_eqb_In (x : string) (seen : list string) :
  existsb (String.eqb x) seen = true <-> In x seen.
Proof.
  rewrite existsb_exists. split.
  - intros (y & Hy & E). apply String.eqb_eq in E. now subst.
  - intros H. exists x. split; [exact H | apply String.eqb_refl].
Qed.

Lemma dict_fromkeys_from_spec l : forall seen,
  NoDup (dict_fromkeys_from seen l) /\
  (forall x, In x (dict_fromkeys_from seen l) <-> In x l /\ ~ In x seen).
Proof.
  induction l as [|a l IH]; intros seen; cbn [dict_fromkeys_from].
  - split; [constructor | intros x; simpl; tauto].
  - destruct (existsb (String.eqb a) seen) eqn:E.
    + apply existsb_eqb_In in E. destruct (IH seen) as [Hn Hi]. split; [exact Hn|].
      intros x. rewrite Hi. simpl. split; [tauto|].
      intros [[<-|H] Hs]; [contradiction | tauto].
    + assert (Ha : ~ In a seen).
      { intros H. apply existsb_eqb_In in H. congruence. }
      destruct (IH (a :: seen)) as [Hn Hi]. split.
      * constructor; [|exact Hn]. rewrite Hi. simpl. tauto.
      * intros x. cbn [In]. rewrite Hi. cbn [In]. split.
        -- intros [<-|[H1 H2]].
           ++ split; [now left | exact Ha].
           ++ split; [now right | tauto].
        -- intros [[<-|H1] H2]; [now left|].
           destruct (string_dec a x) as [->|Hne]; [now left|].
           right. split; [exact H1 | tauto].
Qed.

(** X1: the list of weeks read from column B holds every label of the
    column once; so the last two weeks, which the archive is compared
    with, are always two different labels. *)
Theorem weeks_are_distinct_labels (cells : list string) :
  NoDup (dict_fromkeys cells) /\
  (forall x, In x (dict_fromkeys cells) <-> In x cells) /\
  (forall ws prev last, dict_fromkeys cells = ws ++ [prev; last] -> prev <> last).
Proof.
  destruct (dict_fromkeys_from_spec cells []) as [Hn Hi]. fold (dict_fromkeys cells) in *.
  split; [exact Hn|]. split.
  - intros x. rewrite Hi. simpl. tauto.
  - intros ws prev last E. rewrite E in Hn. apply NoDup_remove_2 in Hn.
    intros ->. apply Hn. apply in_or_app. right. left. reflexivity.
Qed.

Lemma first_cells_blank before : forall after st,
  first_cells (map (fun c => [c]) before ++ [] :: after) st = (Raise IndexError, st).
Proof.
  induction before as [|c before IH]; intros after st.
  - reflexivity.
  - cbn [map app first_cells]. unfold bind. simpl. rewrite IH. reflexivity.
Qed.

Section LedgerFacts.

Variable w : World.

(** X2: with fewer than two different week labels in column B the
    script raises IndexError on [weeks[-1]] or [weeks[-2]], before the
    browser is used. *)
Theorem short_ledger_raises_before_browsing cells n_urls st :
  List.length (dict_fromkeys cells) < 2 ->
  script w (map (fun c => [c]) cells) n_urls st = (Raise IndexError, st).
Proof.
  intros Hlen. unfold script, bind. rewrite first_cells_cells.
  destruct (dict_fromkeys cells) as [|a [|b l]]; simpl in Hlen; try lia; reflexivity.
Qed.

(** X3: a row of column B without a cell makes [row[0]] raise
    IndexError, before the browser is used. *)
Theorem blank_ledger_row_raises before after n_urls st :
  script w (map (fun c => [c]) before ++ [] :: after) n_urls st = (Raise IndexError, st).
Proof. unfold script, bind. rewrite first_cells_blank. reflexivity. Qed.

(** ** The first re-try block when the index never loads *)

Lemma first_block_exhausted last prev : forall k a f st,
  a + k = ntries -> 0 < k ->
  (forall j, j < k -> archive_index w (clock st + j) = inl (f j)) ->
  first_block w last prev (seq a k) st =
    (Raise (External (f (k - 1))),
     set_browser (clock st + k) (page_source st) (visited st ++ repeat url_login k) st).
Proof.
  induction k as [|k IH]; intros a f st Hak Hk Hf; [lia|].
  cbn [seq first_block]. unfold try_except.
  pose proof (Hf 0 ltac:(lia)) as H0. rewrite Nat.add_0_r in H0.
  rewrite (first_block_body_index_fault w last prev st (f 0) H0). cbn [is_Exception].
  destruct (Nat.ltb_spec a (ntries - 1)) as [Hlt|Hge].
  - assert (0 < k) by (unfold ntries in *; lia).
    rewrite (IH (S a) (fun j => f (S j))); try lia.
    + unfold set_browser. simpl. f_equal.
      * f_equal. f_equal. f_equal. lia.
      * f_equal; [lia|]. rewrite <- app_assoc. reflexivity.
    + intros j Hj. simpl. rewrite <- (Hf (S j) ltac:(lia)). f_equal. lia.
  - assert (k = 0) by (unfold ntries in *; lia). subst k. simpl.
    unfold raise. rewrite Nat.add_1_r. reflexivity.
Qed.

(** X4: when the archive index fails to load on each of the 15
    attempts, the script ends with the fault of the last attempt; it
    has been to the login page 15 times and nowhere else, and holds no
    record. *)
Theorem index_exhaustion_is_fatal cells ws last prev n_urls f :
  dict_fromkeys cells = ws ++ [prev; last] ->
  (forall j, j < ntries -> archive_index w j = inl (f j)) ->
  script w (map (fun c => [c]) cells) n_urls initial_state =
    (Raise (External (f (ntries - 1))),
     set_browser ntries "" (repeat url_login ntries) initial_state).
Proof.
  intros Hw Hf. unfold script, bind. rewrite first_cells_cells, Hw.
  unfold subscript_from_end, subscript. rewrite rev_app_distr.
  cbn [rev app nth_error]. unfold ret.
  rewrite (first_block_exhausted last prev ntries 0 f initial_state); auto.
  unfold ntries. lia.
Qed.

(** ** Opening a page (the sequence of lines 469 to 481) *)

(** X5: opening a page calls [driver.get] once, on that address, also
    when a login is needed or something fails: the page is not loaded
    again after the login.  Without the login prompt the page loaded is
    the page returned; with it, the page shown after the login is. *)
Theorem visit_opens_one_address u st :
  visited (exec (visit w u) st) = visited st ++ [u] /\
  clock st < clock (exec (visit w u) st) <= clock st + 2 /\
  same_data st (exec (visit w u) st) /\
  (forall src, outcome (visit w u) st = Ret src ->
     page_source (exec (visit w u) st) = src) /\
  (forall src, browse w (clock st) u = inr src -> check_login_required src = false ->
     visit w u st = (Ret src, set_browser (S (clock st)) src (visited st ++ [u]) st)) /\
  (forall src src', browse w (clock st) u = inr src -> check_login_required src = true ->
     login w (S (clock st)) = inr src' ->
     visit w u st = (Ret src', set_browser (S (S (clock st))) src' (visited st ++ [u]) st)).
Proof.
  unfold visit, exec, outcome, bind, driver_get, driver_page_source, login_cesnet, same_data.
  destruct (browse w (clock st) u) as [f|src] eqn:Eb; cbn -[check_login_required].
  - repeat split; intros; try lia; try discriminate.
  - destruct (check_login_required src) eqn:Ec; cbn -[check_login_required].
    + destruct (login w (S (clock st))) as [f|src'] eqn:El; cbn -[check_login_required];
        repeat split; intros; try lia; try discriminate; try congruence.
      injection H1 as <-. reflexivity.
    + repeat split; intros; try lia; try discriminate; try congruence.
Qed.

End LedgerFacts.

Lemma short_ledger_witness :
  script Scenario.outside (map (fun c => [c]) ["July 2024, Week 4"; "July 2024, Week 4"]) 5
         initial_state
  = (Raise IndexError, initial_state).
Proof.
  apply (short_ledger_raises_before_browsing Scenario.outside
           ["July 2024, Week 4"; "July 2024, Week 4"] 5 initial_state).
  simpl. lia.
Defined.

Lemma index_exhaustion_witness :
  script Outage.no_archive (map (fun c => [c]) Scenario.ledger_august) 5 initial_state =
    (Raise (External (Fault "timeout")),
     set_browser ntries "" (repeat url_login ntries) initial_state).
Proof.
  apply (index_exhaustion_is_fatal Outage.no_archive Scenario.ledger_august
           ["July 2024, Week 4"] "August 2024, Week 2" "August 2024, Week 1" 5
           (fun _ => Fault "timeout")).
  - reflexivity.
  - intros j Hj. reflexivity.
Defined.

(** ** The message links of a posting page (lines 48 to 64, 489 to 575) *)

(** X6: the two filters of the message links accept a text exactly
    when it contains text/plain, respectively text/html, as a substring
    once lowered; a tag without a single string is never accepted. *)
Theorem part_filters_reflect :
  (forall t, contains_plain_text (Some t) = true <->
             PyStr.Substring "text/plain" (PyStr.lower t)) /\
  (forall t, contains_html (Some t) = true <->
             PyStr.Substring "text/html" (PyStr.lower t)) /\
  contains_plain_text None = false /\ contains_html None = false.
Proof.
  repeat split; try reflexivity.
  - unfold contains_plain_text. rewrite andb_true_iff, in_str_iff. tauto.
  - intros H. unfold contains_plain_text. apply in_str_iff in H. rewrite H.
    destruct t; [discriminate H | reflexivity].
  - unfold contains_html. rewrite andb_true_iff, in_str_iff. tauto.
  - intros H. unfold contains_html. apply in_str_iff in H. rewrite H.
    destruct t; [discriminate H | reflexivity].
Qed.

Lemma find_a_none f s :
  (forall a, In a (anchors s) -> a_href a <> None -> f (a_string a) = false) ->
  find_a f s = None.
Proof.
  unfold find_a, find_all_a. induction (anchors s) as [|a l IH]; intros H.
  - reflexivity.
  - cbn [filter]. destruct (a_href a) as [h|] eqn:Eh.
    + rewrite (H a (or_introl eq_refl)) by (rewrite Eh; discriminate).
      apply IH. intros b Hb. apply H. now right.
    + apply IH. intros b Hb. apply H. now right.
Qed.

Section LinkFacts.

Variable w : World.

(** X7: on a posting page where no link with an href is labelled
    text/plain or text/html, the lookup raises TypeError (the subscript
    of [None]) from both tiers without opening any page; the attempt at
    the posting raises it to the re-try loop. *)
Theorem posting_without_message_link_raises soup_posting st :
  (forall a, In a (anchors soup_posting) -> a_href a <> None ->
     contains_plain_text (a_string a) = false /\ contains_html (a_string a) = false) ->
  message_lookup w soup_posting st = (Raise TypeError, st) /\
  (forall u src st1, visit w u st = (Ret src, st1) -> BeautifulSoup w src = soup_posting ->
     posting_attempt w u st = (Raise TypeError, st1)).
Proof.
  intros H.
  assert (Hp : find_a contains_plain_text soup_posting = None)
    by (apply find_a_none; intros a Ha Hh; apply (H a Ha Hh)).
  assert (Hh : find_a contains_html soup_posting = None)
    by (apply find_a_none; intros a Ha Hh; apply (H a Ha Hh)).
  assert (L : forall s, message_lookup w soup_posting s = (Raise TypeError, s)).
  { intros s. unfold message_lookup, try_except, message_tier, bind. rewrite Hp, Hh.
    reflexivity. }
  split; [apply L|].
  intros u src st1 Hv Hs. unfold posting_attempt, bind. rewrite Hv, Hs. apply L.
Qed.

(** X8: on a posting page with a text/html link and no text/plain
    link, when the HTML message loads and its text and salary flag are
    computed, the lookup returns the flag, the markup and the text of
    the HTML message, and the only page opened is that message. *)
Theorem html_only_posting_uses_html_message soup_posting a h src text flag st st1 :
  find_a contains_plain_text soup_posting = None ->
  find_a contains_html soup_posting = Some a -> a_href a = Some h ->
  visit w (url_base ++ h)%string st = (Ret src, st1) ->
  extract_text w src = inr text -> check_salary w text = inr flag ->
  message_lookup w soup_posting st = (Ret (flag, src, text), st1).
Proof.
  intros Hp Hh Ha Hv He Hc.
  unfold message_lookup, try_except, message_tier, bind. rewrite Hp, Hh.
  cbn [subscript_href raise is_BaseException]. rewrite Ha. unfold ret.
  rewrite Hv, He. cbn [call]. unfold ret. rewrite Hc. reflexivity.
Qed.

(** ** The loop over the missing compilations (lines 427 to 614) *)

Section PhaseFacts.

Variable n_compilations : nat.

Lemma empty_week_run week st :
  scrape_missing_compilation w n_compilations (week, []) st =
    match url_binding st with
    | Some u =>
        (Ret tt,
         set_data_compilation
           (data_compilation st ++
            [[VInt (Z.of_nat (n_compilations + List.length (data_compilation st) + 1));
              VStr week; VStr u; VStr (now w (clock st)); VNone; VNone; VNone]]) st)
    | None => (Raise (NameError "url"), st)
    end.
Proof.
  unfold scrape_missing_compilation. cbn [fst snd List.length Nat.ltb Nat.leb].
  unfold bind, len_data_compilation, read_url, datetime_now, data_compilation_append.
  destruct (url_binding st); reflexivity.
Qed.

Lemma nonempty_week_run week u0 urls st :
  scrape_missing_compilation w n_compilations (week, u0 :: urls) st =
  for_each (scrape_posting w n_compilations week) (u0 :: urls) st.
Proof. reflexivity. Qed.

Lemma scrape_missing_compilation_bound c st u :
  url_binding st = Some u ->
  exists st' u', scrape_missing_compilation w n_compilations c st = (Ret tt, st') /\
                 url_binding st' = Some u'.
Proof.
  intros Hu. destruct c as [week urls]. destruct urls as [|u0 urls].
  - rewrite empty_week_run, Hu. eexists; eexists. split; [reflexivity|]. exact Hu.
  - rewrite nonempty_week_run.
    destruct (for_each_postings_spec w n_compilations week (u0 :: urls) st)
      as (st1 & new & Hrun & _ & _ & Hl & _).
    exists st1, (last (u0 :: urls) ""). split; [exact Hrun | apply Hl; discriminate].
Qed.

Lemma scrape_messages_bound mcd : forall st u,
  url_binding st = Some u ->
  exists st', scrape_messages w n_compilations mcd st = (Ret tt, st').
Proof.
  unfold scrape_messages. induction mcd as [|c mcd IH]; intros st u Hu.
  - exists st. reflexivity.
  - destruct (scrape_missing_compilation_bound c st u Hu) as (st1 & u1 & Hrun & Hu1).
    destruct (IH st1 u1 Hu1) as (st2 & Hrun2).
    exists st2. cbn [for_each]. unfold bind. rewrite Hrun. exact Hrun2.
Qed.

(** X9: the loop over the missing compilations can fail in one way
    only: with NameError on [url], at a first compilation without
    posting URLs, before anything is recorded.  In every other case it
    runs to its end, whatever the outside does. *)
Theorem posting_phase_fails_only_on_empty_first_week mcd st e st' :
  scrape_messages w n_compilations mcd st = (Raise e, st') ->
  e = NameError "url" /\ st' = st /\ url_binding st = None /\
  exists week rest, mcd = (week, []) :: rest.
Proof.
  destruct mcd as [|[week urls] rest]; [discriminate|].
  unfold scrape_messages. cbn [for_each]. unfold bind.
  destruct urls as [|u0 urls].
  - rewrite empty_week_run.
    destruct (url_binding st) as [u|] eqn:Hu.
    + match goal with |- context [for_each _ rest ?s] =>
        destruct (scrape_messages_bound rest s u Hu) as (st2 & Hrun2) end.
      unfold scrape_messages in Hrun2. rewrite Hrun2. discriminate.
    + intros [= <- <-]. repeat split. now exists week, rest.
  - rewrite nonempty_week_run.
    destruct (for_each_postings_spec w n_compilations week (u0 :: urls) st)
      as (st1 & new & Hrun & _ & _ & Hl & _).
    rewrite Hrun.
    destruct (scrape_messages_bound rest st1 _ (Hl ltac:(discriminate))) as (st2 & Hrun2).
    unfold scrape_messages in Hrun2. rewrite Hrun2. discriminate.
Qed.

End PhaseFacts.

End LinkFacts.

Lemma posting_without_message_link_witness :
  message_lookup Scenario.outside
    (mkSoup [] [mkAnchor (Some "/cgi-bin/wa.exe?A2=9") (Some "Reply");
                mkAnchor None (Some "text/plain")]) initial_state
  = (Raise TypeError, initial_state) /\
  (forall u src st1,
     visit Scenario.outside u initial_state = (Ret src, st1) ->
     BeautifulSoup Scenario.outside src =
       mkSoup [] [mkAnchor (Some "/cgi-bin/wa.exe?A2=9") (Some "Reply");
                  mkAnchor None (Some "text/plain")] ->
     posting_attempt Scenario.outside u initial_state = (Raise TypeError, st1)).
Proof.
  apply (posting_without_message_link_raises Scenario.outside
           (mkSoup [] [mkAnchor (Some "/cgi-bin/wa.exe?A2=9") (Some "Reply");
                       mkAnchor None (Some "text/plain")]) initial_state).
  intros a [<-|[<-|[]]] Hh.
  - split; reflexivity.
  - exfalso. apply Hh. reflexivity.
Defined.

Lemma html_only_posting_witness :
  message_lookup Scenario.outside
    (mkSoup [] [mkAnchor (Some "/cgi-bin/wa.exe?A3=html") (Some "text/html (30 lines)")])
    initial_state
  = (Ret (VBool false,
          "https://listserv.kent.edu/cgi-bin/wa.exe?A3=html",
          "text of https://listserv.kent.edu/cgi-bin/wa.exe?A3=html"),
     set_browser 1 "https://listserv.kent.edu/cgi-bin/wa.exe?A3=html"
                 ["https://listserv.kent.edu/cgi-bin/wa.exe?A3=html"] initial_state).
Proof.
  apply (html_only_posting_uses_html_message Scenario.outside
           (mkSoup [] [mkAnchor (Some "/cgi-bin/wa.exe?A3=html")
                                (Some "text/html (30 lines)")])
           (mkAnchor (Some "/cgi-bin/wa.exe?A3=html") (Some "text/html (30 lines)"))
           "/cgi-bin/wa.exe?A3=html").
  - reflexivity.
  - reflexivity.
  - reflexivity.
  - reflexivity.
  - reflexivity.
  - reflexivity.
Defined.

Lemma posting_phase_failure_witness :
  NameError "url" = NameError "url" /\ initial_state = initial_state /\
  url_binding initial_state = None /\
  exists week rest,
    [("August 2024, Week 1", []);
     ("August 2024, Week 2", [Scenario.unreachable_posting; Scenario.plain_posting])]
    = (week, []) :: rest.
Proof.
  apply (posting_phase_fails_only_on_empty_first_week Scenario.outside 3
           [("August 2024, Week 1", []);
            ("August 2024, Week 2", [Scenario.unreachable_posting; Scenario.plain_posting])]
           initial_state (NameError "url") initial_state).
  reflexivity.
Defined.

(** ** How much browsing a posting can take (lines 464 to 607) *)

Lemma costs_ret {A} (a : A) : costs 0 0 (ret a).
Proof. intros st. unfold exec, ret. simpl. lia. Qed.

Lemma costs_raise {A} e : costs 0 0 (@raise A e).
Proof. intros st. unfold exec, raise. simpl. lia. Qed.

Lemma costs_weaken {A} c v c' v' (m : M A) :
  costs c v m -> c <= c' -> v <= v' -> costs c' v' m.
Proof. intros H Hc Hv st. specialize (H st). lia. Qed.

Lemma costs_bind {A B} c1 v1 c2 v2 (m : M A) (k : A -> M B) :
  costs c1 v1 m -> (forall a, costs c2 v2 (k a)) -> costs (c1 + c2) (v1 + v2) (bind m k).
Proof.
  intros Hm Hk st. specialize (Hm st). unfold exec, bind in *.
  destruct (m st) as [[a|e] st1]; simpl in *.
  - specialize (Hk a st1). unfold exec in Hk. lia.
  - lia.
Qed.

Lemma costs_try {A} c1 v1 c2 v2 (m : M A) catches (h : exn -> M A) :
  costs c1 v1 m -> (forall e, costs c2 v2 (h e)) ->
  costs (c1 + c2) (v1 + v2) (try_except m catches h).
Proof.
  intros Hm Hh st. specialize (Hm st). unfold exec, try_except in *.
  destruct (m st) as [[a|e] st1]; simpl in *.
  - lia.
  - destruct (catches e); simpl.
    + specialize (Hh e st1). unfold exec in Hh. lia.
    + lia.
Qed.

Lemma costs_call {A} (r : fault + A) : costs 0 0 (call r).
Proof. destruct r; [apply costs_raise | apply costs_ret]. Qed.

Lemma costs_subscript_href a : costs 0 0 (subscript_href a).
Proof.
  destruct a as [[[h|] s]|]; simpl; first [apply costs_ret | apply costs_raise].
Qed.

Lemma costs_append r : costs 0 0 (data_compilation_append r).
Proof. intros st. unfold exec, data_compilation_append. simpl. lia. Qed.

Section CostFacts.

Variable w : World.

Lemma costs_driver_get u : costs 1 1 (driver_get w u).
Proof.
  intros st. unfold exec, driver_get.
  destruct (browse w (clock st) u); simpl; rewrite length_app; simpl; lia.
Qed.

Lemma costs_login : costs 1 0 (login_cesnet w).
Proof.
  intros st. unfold exec, login_cesnet. destruct (login w (clock st)); simpl; lia.
Qed.

Lemma costs_visit u : costs 2 1 (visit w u).
Proof.
  unfold visit.
  apply (costs_bind 1 1 1 0); [apply costs_driver_get | intros _].
  apply (costs_bind 0 0 1 0); [intros st; unfold exec; simpl; lia | intros src].
  apply (costs_bind 1 0 0 0).
  - destruct (check_login_required src);
      [apply costs_login | apply (costs_weaken 0 0); [apply costs_ret | lia | lia]].
  - intros _ st. unfold exec. simpl. lia.
Qed.

Lemma costs_message_tier f s : costs 2 1 (message_tier w f s).
Proof.
  unfold message_tier.
  apply (costs_bind 0 0 2 1); [apply costs_subscript_href | intros h].
  apply (costs_bind 2 1 0 0); [apply costs_visit | intros src].
  apply (costs_bind 0 0 0 0); [apply costs_call | intros text].
  apply (costs_bind 0 0 0 0); [apply costs_call | intros flag].
  apply costs_ret.
Qed.

Lemma costs_posting_attempt u : costs 6 3 (posting_attempt w u).
Proof.
  unfold posting_attempt.
  apply (costs_bind 2 1 4 2); [apply costs_visit | intros src].
  unfold message_lookup.
  apply (costs_try 2 1 2 1); [apply costs_message_tier | intros _; apply costs_message_tier].
Qed.

Lemma costs_second_block u : forall attempts dp,
  costs (6 * List.length attempts) (3 * List.length attempts) (second_block w attempts u dp).
Proof.
  induction attempts as [|a rest IH]; intros dp.
  - apply costs_ret.
  - cbn [second_block List.length].
    replace (6 * S (List.length rest)) with (6 + 6 * List.length rest) by lia.
    replace (3 * S (List.length rest)) with (3 + 3 * List.length rest) by lia.
    apply costs_try.
    + apply (costs_bind 6 3 0 0 _ _ (costs_posting_attempt u)).
      intros [[x y] z]. apply costs_ret.
    + intros e. destruct (Nat.ltb a (ntries - 1)); [apply IH|].
      apply (costs_bind 0 0 _ _ _ _ (costs_append _)). intros _. apply IH.
Qed.

(** X10: one posting never takes more than 6 interactions per attempt,
    3 of them calls of [driver.get] (the posting, the plain-text
    message, the HTML message): at most 90 interactions and 45 page
    loads for the 15 attempts, however the pages answer. *)
Theorem posting_page_loads_bounded n week u st :
  clock st <= clock (exec (scrape_posting w n week u) st) <= clock st + 6 * ntries /\
  List.length (visited st) <= List.length (visited (exec (scrape_posting w n week u) st))
    <= List.length (visited st) + 3 * ntries.
Proof.
  revert st. change (costs (6 * ntries) (3 * ntries) (scrape_posting w n week u)).
  unfold scrape_posting.
  apply (costs_bind 0 0 (6 * ntries) (3 * ntries));
    [intros st; unfold exec; simpl; lia | intros _].
  apply (costs_bind 0 0 (6 * ntries) (3 * ntries));
    [intros st; unfold exec; simpl; lia | intros len].
  apply (costs_bind 0 0 (6 * ntries) (3 * ntries));
    [intros st; unfold exec; simpl; lia | intros ts].
  replace (6 * ntries) with (6 * List.length (seq 0 ntries) + 0)
    by (rewrite length_seq; lia).
  replace (3 * ntries) with (3 * List.length (seq 0 ntries) + 0)
    by (rewrite length_seq; lia).
  apply costs_bind; [apply costs_second_block | intros dp; apply costs_append].
Qed.
End CostFacts.

(** ** The ids of the posting records (lines 443 to 607) *)

Section IdFacts.

Variable w : World.
Variable n_compilations : nat.

(** X11: when no posting of a week runs out of attempts, the loop over
    its URLs appends exactly one record per URL, in the order of the
    URLs, with seven fields and with ids that continue without gap or
    repeat from the number of rows already there. *)
Theorem ids_contiguous_without_exhaustion week urls : forall st,
  none_exhausted w n_compilations week urls st = true ->
  exists new,
    data_compilation (exec (for_each (scrape_posting w n_compilations week) urls) st)
      = data_compilation st ++ new /\
    List.length new = List.length urls /\
    forall i u, nth_error urls i = Some u ->
      exists r, nth_error new i = Some r /\
        record_id r =
          Some (Z.of_nat (n_compilations + List.length (data_compilation st) + i + 1)) /\
        nth_error r 1 = Some (VStr week) /\ nth_error r 2 = Some (VStr u) /\
        List.length r = 7.
Proof.
  induction urls as [|u urls IH]; intros st Hn.
  - exists []. rewrite app_nil_r. repeat split. intros i u Hi. destruct i; discriminate.
  - cbn [none_exhausted] in Hn. apply andb_true_iff in Hn. destruct Hn as [Hx Hn].
    apply negb_true_iff in Hx.
    destruct (scrape_posting_spec w n_compilations week u st) as (st1 & Hrun & _ & _ & Hc).
    destruct Hc as [(_ & x & y & z & Hd) | (Hx' & _)]; [|congruence].
    assert (E1 : exec (scrape_posting w n_compilations week u) st = st1)
      by (unfold exec; rewrite Hrun; reflexivity).
    rewrite E1 in Hn. destruct (IH st1 Hn) as (new & Hd2 & Hlen & Hids).
    exists ((posting_head w n_compilations week u st ++ [x; VStr y; VStr z]) :: new).
    cbn [for_each]. unfold exec, bind in *. rewrite Hrun. split; [|split].
    + rewrite Hd2, Hd, <- app_assoc. reflexivity.
    + simpl. now rewrite Hlen.
    + intros i u' Hi. destruct i as [|i].
      * injection Hi as <-. eexists. split; [reflexivity|].
        unfold posting_head. simpl. repeat split. do 2 f_equal. lia.
      * cbn [nth_error] in Hi. destruct (Hids i u' Hi) as (r & Hr & Hid & Hw & Hu & Hl).
        exists r. cbn [nth_error]. split; [exact Hr|]. split; [|auto].
        rewrite Hid, Hd, length_app. simpl. do 2 f_equal. lia.
Qed.

End IdFacts.

Lemma ids_contiguous_witness :
  exists new,
    data_compilation
      (exec (for_each (scrape_posting Scenario.outside 3 "August 2024, Week 2")
                      [Scenario.plain_posting; Scenario.two_part_posting]) initial_state)
      = data_compilation initial_state ++ new /\
    List.length new = List.length [Scenario.plain_posting; Scenario.two_part_posting] /\
    forall i u,
      nth_error [Scenario.plain_posting; Scenario.two_part_posting] i = Some u ->
      exists r, nth_error new i = Some r /\
        record_id r =
          Some (Z.of_nat (3 + List.length (data_compilation initial_state) + i + 1)) /\
        nth_error r 1 = Some (VStr "August 2024, Week 2") /\
        nth_error r 2 = Some (VStr u) /\
        List.length r = 7.
Proof.
  apply (ids_contiguous_without_exhaustion Scenario.outside 3 "August 2024, Week 2"
           [Scenario.plain_posting; Scenario.two_part_posting] initial_state).
  vm_compute. reflexivity.
Defined.

Lemma exhausted_posting_repeats_id_witness :
  map record_id
      (appended initial_state
         (exec (scrape_posting Scenario.outside 3 "August 2024, Week 2"
                               Scenario.unreachable_posting) initial_state)) =
    [Some (Z.of_nat (3 + List.length (data_compilation initial_state) + 1));
     Some (Z.of_nat (3 + List.length (data_compilation initial_state) + 1))] /\
  forall u' r,
    In r (appended
            (exec (scrape_posting Scenario.outside 3 "August 2024, Week 2"
                                  Scenario.unreachable_posting) initial_state)
            (exec (scrape_posting Scenario.outside 3 "August 2024, Week 2"
                                  Scenario.unreachable_posting ;;
                   scrape_posting Scenario.outside 3 "August 2024, Week 2" u')
                  initial_state)) ->
    record_id r = Some (Z.of_nat (3 + List.length (data_compilation initial_state) + 3)).
Proof.
  apply (exhausted_posting_repeats_id Scenario.outside 3 "August 2024, Week 2"
           Scenario.unreachable_posting initial_state).
  vm_compute. reflexivity.
Defined.

(** ** What the lists hold (lines 443 to 690) *)

Lemma urls_grow_by_refl Q st st' :
  data_compilation st' = data_compilation st ->
  data_compilation_urls_inside_messages st' = data_compilation_urls_inside_messages st ->
  urls_grow_by Q st st'.
Proof. intros H1 H2. split; [exact H1|]. exists []. rewrite app_nil_r. auto. Qed.

Lemma urls_grow_by_trans Q st1 st2 st3 :
  urls_grow_by Q st1 st2 -> urls_grow_by Q st2 st3 -> urls_grow_by Q st1 st3.
Proof.
  intros (D1 & n1 & E1 & F1) (D2 & n2 & E2 & F2). split; [congruence|].
  exists (n1 ++ n2). split; [rewrite E2, E1, app_assoc; reflexivity|].
  apply Forall_app. auto.
Qed.

Lemma urls_grow_by_weaken (Q Q' : row -> Prop) st st' :
  (forall r, Q r -> Q' r) -> urls_grow_by Q st st' -> urls_grow_by Q' st st'.
Proof.
  intros H (D & new & E & F). split; [exact D|]. exists new. split; [exact E|].
  eapply Forall_impl; eassumption.
Qed.

Lemma postings_grow_by_refl Q st st' :
  data_compilation st' = data_compilation st ->
  data_compilation_urls_inside_messages st' = data_compilation_urls_inside_messages st ->
  postings_grow_by Q st st'.
Proof. intros H1 H2. split; [exact H2|]. exists []. rewrite app_nil_r. auto. Qed.

Lemma postings_grow_by_trans Q st1 st2 st3 :
  postings_grow_by Q st1 st2 -> postings_grow_by Q st2 st3 -> postings_grow_by Q st1 st3.
Proof.
  intros (D1 & n1 & E1 & F1) (D2 & n2 & E2 & F2). split; [congruence|].
  exists (n1 ++ n2). split; [rewrite E2, E1, app_assoc; reflexivity|].
  apply Forall_app. auto.
Qed.

Lemma for_each_rel {A} (R : state -> state -> Prop) (f : A -> M unit) (l : list A) :
  (forall st, R st st) ->
  (forall a b c, R a b -> R b c -> R a c) ->
  (forall x, In x l -> forall st, R st (exec (f x) st)) ->
  forall st, R st (exec (for_each f l) st).
Proof.
  intros Hrefl Htrans. induction l as [|x l IH]; intros Hf st.
  - apply Hrefl.
  - cbn [for_each]. unfold exec, bind.
    pose proof (Hf x (or_introl eq_refl) st) as Hx. unfold exec in Hx.
    destruct (f x st) as [[[]|e] st1]; simpl in *.
    + eapply Htrans; [exact Hx|]. apply IH. intros y Hy. apply Hf. now right.
    + exact Hx.
Qed.

Lemma keeps_data_ret {A} (a : A) : keeps_data (ret a).
Proof. intros st. apply same_data_refl. Qed.

Lemma keeps_data_raise {A} e : keeps_data (@raise A e).
Proof. intros st. apply same_data_refl. Qed.

Lemma keeps_data_bind {A B} (m : M A) (k : A -> M B) :
  keeps_data m -> (forall a, keeps_data (k a)) -> keeps_data (bind m k).
Proof.
  intros Hm Hk st. specialize (Hm st). unfold exec, bind in *.
  destruct (m st) as [[a|e] st1]; simpl in *; [|exact Hm].
  eapply same_data_trans; [exact Hm | apply (Hk a st1)].
Qed.

Lemma keeps_data_try {A} (m : M A) c (h : exn -> M A) :
  keeps_data m -> (forall e, keeps_data (h e)) -> keeps_data (try_except m c h).
Proof.
  intros Hm Hh st. specialize (Hm st). unfold exec, try_except in *.
  destruct (m st) as [[a|e] st1]; simpl in *; [exact Hm|].
  destruct (c e); [|exact Hm].
  eapply same_data_trans; [exact Hm | apply (Hh e st1)].
Qed.

Lemma keeps_data_browser_only {A} (m : M A) : browser_only m -> keeps_data m.
Proof. intros H st. apply (H st). Qed.

Lemma keeps_data_subscript {A} (l : list A) i : keeps_data (subscript l i).
Proof. unfold subscript. destruct (nth_error l i); [apply keeps_data_ret | apply keeps_data_raise]. Qed.

Lemma keeps_data_subscript_from_end {A} (l : list A) k : keeps_data (subscript_from_end l k).
Proof. destruct k; [apply keeps_data_raise | apply keeps_data_subscript]. Qed.

Lemma keeps_data_first_cells rows : keeps_data (first_cells rows).
Proof.
  induction rows as [|r rows IH]; [apply keeps_data_ret|].
  cbn [first_cells]. apply keeps_data_bind; [apply keeps_data_subscript | intros c].
  apply keeps_data_bind; [exact IH | intros cs; apply keeps_data_ret].
Qed.

Section FrameFacts.

Variable w : World.

Lemma keeps_data_open_archive : keeps_data (open_archive w).
Proof.
  intros st. unfold exec, open_archive.
  destruct (archive_index w (clock st)); repeat split.
Qed.

Lemma keeps_data_scrape_compilation u : keeps_data (scrape_compilation w u).
Proof.
  unfold scrape_compilation.
  apply keeps_data_bind; [apply keeps_data_browser_only, browser_only_visit | intros src].
  apply keeps_data_bind; [apply keeps_data_subscript | intros wk; apply keeps_data_ret].
Qed.

Lemma keeps_data_first_block_body last prev : keeps_data (first_block_body w last prev).
Proof.
  unfold first_block_body.
  apply keeps_data_bind; [apply keeps_data_open_archive | intros lis].
  apply keeps_data_bind; [apply keeps_data_subscript | intros p].
  apply keeps_data_bind; [apply keeps_data_subscript | intros pp].
  destruct (_ && _); [apply keeps_data_raise|].
  apply keeps_data_bind; [apply keeps_data_subscript | intros li1].
  apply keeps_data_bind;
    [unfold subscript_href_li; destruct (li_a_href li1);
       [apply keeps_data_ret | apply keeps_data_raise] | intros up].
  apply keeps_data_bind; [apply keeps_data_subscript | intros li2].
  apply keeps_data_bind;
    [unfold subscript_href_li; destruct (li_a_href li2);
       [apply keeps_data_ret | apply keeps_data_raise] | intros upp].
  apply keeps_data_bind.
  - destruct (negb _); [|apply keeps_data_ret].
    apply keeps_data_bind; [apply keeps_data_scrape_compilation | intros c; apply keeps_data_ret].
  - intros mcd. apply keeps_data_bind; [|intros mcd'; apply keeps_data_ret].
    destruct (negb _); [|apply keeps_data_ret].
    apply keeps_data_bind; [apply keeps_data_scrape_compilation | intros c; apply keeps_data_ret].
Qed.

Lemma keeps_data_first_block last prev attempts : keeps_data (first_block w last prev attempts).
Proof.
  induction attempts as [|a rest IH]; [apply keeps_data_raise|].
  cbn [first_block]. apply keeps_data_try; [apply keeps_data_first_block_body|].
  intros e. destruct (Nat.ltb a (ntries - 1)); [exact IH | apply keeps_data_raise].
Qed.
End FrameFacts.

Section GrowthFacts.

Variable w : World.
Variable n_compilations n_urls : nat.

Lemma scrape_posting_grows week u st :
  postings_grow_by (fun r => List.length r = 7) st
    (exec (scrape_posting w n_compilations week u) st).
Proof.
  destruct (scrape_posting_spec w n_compilations week u st) as (st1 & Hrun & _ & Hm & Hc).
  unfold exec. rewrite Hrun. cbn [snd]. split; [exact Hm|].
  destruct Hc as [(_ & x & y & z & Hd) | (_ & Hd)]; eexists; (split; [exact Hd|]);
    repeat constructor.
Qed.

Lemma scrape_missing_compilation_grows c st :
  postings_grow_by (fun r => List.length r = 7) st
    (exec (scrape_missing_compilation w n_compilations c) st).
Proof.
  destruct c as [week urls]. destruct urls as [|u0 urls].
  - unfold exec. rewrite empty_week_run. destruct (url_binding st).
    + cbn [snd]. split; [reflexivity|]. eexists. split; [reflexivity|]. repeat constructor.
    + apply postings_grow_by_refl; reflexivity.
  - unfold exec. rewrite nonempty_week_run.
    apply (for_each_rel (postings_grow_by (fun r => List.length r = 7))).
    + intros s. apply postings_grow_by_refl; reflexivity.
    + apply postings_grow_by_trans.
    + intros x _ s. apply scrape_posting_grows.
Qed.

Lemma scrape_messages_grows mcd st :
  postings_grow_by (fun r => List.length r = 7) st
    (exec (scrape_messages w n_compilations mcd) st).
Proof.
  unfold scrape_messages.
  apply (for_each_rel (postings_grow_by (fun r => List.length r = 7))).
  - intros s. apply postings_grow_by_refl; reflexivity.
  - apply postings_grow_by_trans.
  - intros x _ s. apply scrape_missing_compilation_grows.
Qed.

Lemma scrape_url_in_message_grows p u st :
  urls_grow_by (fun r => List.length r = 9 /\
                  nth_error r 0 = nth_error p 0 /\ nth_error r 2 = nth_error p 1 /\
                  nth_error r 3 = nth_error p 2 /\ nth_error r 4 = Some (VStr u))
    st (exec (scrape_url_in_message w n_urls p u) st).
Proof.
  unfold scrape_url_in_message, exec, bind, subscript.
  destruct (nth_error p 0) as [x0|] eqn:E0; [|apply urls_grow_by_refl; reflexivity].
  unfold ret at 1. unfold len_urls_inside_messages.
  destruct (nth_error p 1) as [x1|] eqn:E1; [|apply urls_grow_by_refl; reflexivity].
  unfold ret at 1.
  destruct (nth_error p 2) as [x2|] eqn:E2; [|apply urls_grow_by_refl; reflexivity].
  unfold ret at 1. unfold datetime_now.
  destruct (execute_retrying_clock_only w u (max_attempts w - 1) st) as [t Ht].
  unfold get_selenium_response, execute. unfold exec in Ht.
  destruct (execute_retrying (fetch w u) (max_attempts w - 1) st) as [[src|e] st1];
    simpl in Ht; subst st1; [|apply urls_grow_by_refl; reflexivity].
  destruct (extract_text w src) as [f|text]; cbn [call raise ret];
    [apply urls_grow_by_refl; reflexivity|].
  destruct (check_salary w text) as [f|flag]; cbn [call raise ret];
    [apply urls_grow_by_refl; reflexivity|].
  unfold urls_inside_messages_append. cbn [snd].
  split; [reflexivity|]. eexists. split; [reflexivity|].
  constructor; [|constructor]. repeat split.
Qed.

Lemma scrape_urls_inside_message_grows p st :
  urls_grow_by (refers_to w p) st (exec (scrape_urls_inside_message w n_urls p) st).
Proof.
  unfold scrape_urls_inside_message, exec, bind, subscript_from_end, subscript.
  destruct (nth_error (rev p) 0) as [text|] eqn:Et;
    [|apply urls_grow_by_refl; reflexivity].
  unfold ret at 1. unfold extract_urls, call.
  destruct (extracted w text) as [f|urls] eqn:Ex;
    [apply urls_grow_by_refl; reflexivity|].
  unfold ret at 1.
  apply (for_each_rel (urls_grow_by (refers_to w p))).
  - intros s. apply urls_grow_by_refl; reflexivity.
  - apply urls_grow_by_trans.
  - intros u Hu s.
    eapply urls_grow_by_weaken; [|apply scrape_url_in_message_grows].
    intros r (H9 & H0 & H1 & H2 & H4). unfold refers_to. repeat split; auto.
    exists text, urls, u. auto.
Qed.

Lemma embedded_phase_grows ps st :
  urls_grow_by (fun r => exists p, In p ps /\ refers_to w p r) st
    (exec (for_each (scrape_urls_inside_message w n_urls) ps) st).
Proof.
  apply (for_each_rel (urls_grow_by (fun r => exists p, In p ps /\ refers_to w p r))).
  - intros s. apply urls_grow_by_refl; reflexivity.
  - apply urls_grow_by_trans.
  - intros p Hp s.
    eapply urls_grow_by_weaken; [|apply scrape_urls_inside_message_grows].
    intros r Hr. exists p. auto.
Qed.

(** X14: the loop over the posting records leaves them as they are,
    and every embedded-URL record it appends has nine fields and was
    built from one of them: it carries that posting's id, week and URL,
    and a URL extracted from that posting's last field. *)
Theorem embedded_records_refer_to_postings ps st :
  data_compilation (exec (for_each (scrape_urls_inside_message w n_urls) ps) st)
    = data_compilation st /\
  exists new,
    data_compilation_urls_inside_messages
      (exec (for_each (scrape_urls_inside_message w n_urls) ps) st)
      = data_compilation_urls_inside_messages st ++ new /\
    Forall (fun r => exists p, In p ps /\ refers_to w p r) new.
Proof. exact (embedded_phase_grows ps st). Qed.

End GrowthFacts.

Lemma well_shaped_same_data st st' : same_data st st' -> well_shaped st -> well_shaped st'.
Proof. intros (_ & D & U) [H7 H9]. split; [rewrite D | rewrite U]; assumption. Qed.

Lemma well_shaped_postings st st' :
  postings_grow_by (fun r => List.length r = 7) st st' -> well_shaped st -> well_shaped st'.
Proof.
  intros (U & new & D & F) [H7 H9]. split; [rewrite D; apply Forall_app; auto | rewrite U; exact H9].
Qed.

Lemma well_shaped_urls (Q : row -> Prop) st st' :
  (forall r, Q r -> List.length r = 9) ->
  urls_grow_by Q st st' -> well_shaped st -> well_shaped st'.
Proof.
  intros HQ (D & new & U & F) [H7 H9]. split; [rewrite D; exact H7|].
  rewrite U. apply Forall_app. split; [exact H9|]. eapply Forall_impl; [|exact F]. exact HQ.
Qed.

Section ShapeFacts.

Variable w : World.
Variable n_urls : nat.

Lemma script_keeps_shape rows st :
  well_shaped st -> well_shaped (exec (script w rows n_urls) st).
Proof.
  intros Hs. unfold script, exec, bind.
  pose proof (keeps_data_first_cells rows st) as H1. unfold exec in H1.
  destruct (first_cells rows st) as [[cells|e] s1]; cbn [snd] in *;
    [|eapply well_shaped_same_data; eassumption].
  assert (Hs1 : well_shaped s1) by (eapply well_shaped_same_data; eassumption).
  clear H1 Hs.
  pose proof (keeps_data_subscript_from_end (dict_fromkeys cells) 1 s1) as H2.
  unfold exec in H2.
  destruct (subscript_from_end (dict_fromkeys cells) 1 s1) as [[last|e] s2]; cbn [snd] in *;
    [|eapply well_shaped_same_data; eassumption].
  assert (Hs2 : well_shaped s2) by (eapply well_shaped_same_data; eassumption).
  clear H2 Hs1.
  pose proof (keeps_data_subscript_from_end (dict_fromkeys cells) 2 s2) as H3.
  unfold exec in H3.
  destruct (subscript_from_end (dict_fromkeys cells) 2 s2) as [[prev|e] s3]; cbn [snd] in *;
    [|eapply well_shaped_same_data; eassumption].
  assert (Hs3 : well_shaped s3) by (eapply well_shaped_same_data; eassumption).
  clear H3 Hs2.
  pose proof (keeps_data_first_block w last prev (seq 0 ntries) s3) as H4.
  unfold exec in H4.
  destruct (first_block w last prev (seq 0 ntries) s3) as [[mcd|e] s4]; cbn [snd] in *;
    [|eapply well_shaped_same_data; eassumption].
  assert (Hs4 : well_shaped s4) by (eapply well_shaped_same_data; eassumption).
  clear H4 Hs3.
  pose proof (scrape_messages_grows w (List.length rows) mcd s4) as H5.
  unfold exec in H5.
  destruct (scrape_messages w (List.length rows) mcd s4) as [[[]|e] s5]; cbn [snd] in *;
    [|eapply well_shaped_postings; eassumption].
  assert (Hs5 : well_shaped s5) by (eapply well_shaped_postings; eassumption).
  unfold scrape_urls_inside_messages.
  pose proof (embedded_phase_grows w n_urls (data_compilation s5) s5) as H6.
  unfold exec in H6.
  eapply well_shaped_urls; [|exact H6|exact Hs5].
  intros r (p & _ & H9 & _). exact H9.
Qed.

(** X15: however the script ends and whatever the outside answers,
    every posting record it holds has seven fields and every
    embedded-URL record nine. *)
Theorem records_have_fixed_shapes rows :
  well_shaped (exec (script w rows n_urls) initial_state).
Proof. apply script_keeps_shape. split; constructor. Qed.
End ShapeFacts.

(** ** Uploading a file (lines 99 to 150) *)

Import Storage.

Lemma disk_read_put name content d : disk_read name (disk_put name content d) = Some content.
Proof. unfold disk_read, disk_put. simpl. rewrite String.eqb_refl. reflexivity. Qed.

Lemma disk_without_put name content d :
  disk_without name (disk_put name content d) = disk_without name d.
Proof.
  unfold disk_put, disk_without. simpl. rewrite String.eqb_refl. simpl.
  induction d as [|e d IH]; [reflexivity|]. simpl.
  destruct (negb (String.eqb name (fst e))) eqn:E; simpl; rewrite ?E, IH; reflexivity.
Qed.

Lemma disk_put_put name c1 c2 d : disk_put name c2 (disk_put name c1 d) = disk_put name c2 d.
Proof. unfold disk_put at 1. rewrite disk_without_put. reflexivity. Qed.

Lemma disk_without_absent name d : disk_read name d = None -> disk_without name d = d.
Proof.
  unfold disk_read, disk_without. induction d as [|e d IH]; [reflexivity|]. simpl.
  destruct (String.eqb name (fst e)); simpl; [discriminate|].
  intros H. rewrite (IH H). reflexivity.
Qed.

Section UploadFacts.

Variable sv : Services.

(** What [upload_file] does, case by case. *)
Lemma upload_file_run element_id file_suffix content folder_id so :
  upload_file sv element_id file_suffix content folder_id so =
    let name := temp_name element_id file_suffix in
    let t := s_clock so in
    match fs_open sv t name with
    | Some _ => (Ret tt, tick so)
    | None =>
        match content with
        | VStr s =>
            match files_create sv (S t) folder_id name s with
            | Some _ => (Ret tt, mkStore (S (S t)) (disk_put name s (disk so)) (drive so) (sheets so))
            | None =>
                match fs_remove sv (S (S t)) name with
                | Some _ =>
                    (Ret tt, mkStore (S (S (S t))) (disk_put name s (disk so))
                                     (drive so ++ [(folder_id, name, s)]) (sheets so))
                | None =>
                    (Ret tt, mkStore (S (S (S t))) (disk_without name (disk so))
                                     (drive so ++ [(folder_id, name, s)]) (sheets so))
                end
            end
        | _ => (Ret tt, mkStore (S t) (disk_put name "" (disk so)) (drive so) (sheets so))
        end
    end.
Proof.
  unfold upload_file, stry, sbind, open_w, temp_name. cbv zeta.
  destruct (fs_open sv (s_clock so) _) as [f|] eqn:Eo; [reflexivity|].
  unfold file_write, set_disk, tick. cbn [s_clock disk drive sheets].
  destruct content as [| b | z | s]; try reflexivity.
  unfold create_in_drive. cbn [s_clock disk drive sheets].
  rewrite disk_put_put, disk_read_put.
  destruct (files_create sv _ _ _ _) as [f|] eqn:Ec; [reflexivity|].
  unfold os_remove. cbn [s_clock disk drive sheets]. rewrite disk_read_put.
  destruct (fs_remove sv _ _) as [f|] eqn:Er; [reflexivity|].
  unfold set_disk, tick. cbn [s_clock disk drive sheets]. rewrite disk_without_put.
  reflexivity.
Qed.

Lemma disk_read_without name d : disk_read name (disk_without name d) = None.
Proof.
  unfold disk_read, disk_without. induction d as [|e d IH]; [reflexivity|]. simpl.
  destruct (String.eqb name (fst e)) eqn:E; simpl; [exact IH|]. rewrite E. exact IH.
Qed.

(** X16: [upload_file] never raises: whatever the disk and Drive
    answer, and whatever the content is, it returns; it takes between
    one and three interactions, leaves the sheets alone, and adds to
    Drive at most the one file it was asked for, and only when the
    content is a string. *)
Theorem upload_file_never_raises element_id file_suffix content folder_id so :
  let so' := snd (upload_file sv element_id file_suffix content folder_id so) in
  fst (upload_file sv element_id file_suffix content folder_id so) = Ret tt /\
  sheets so' = sheets so /\
  s_clock so < s_clock so' <= s_clock so + 3 /\
  (drive so' = drive so \/
   exists s, content = VStr s /\
             drive so' = drive so ++ [(folder_id, temp_name element_id file_suffix, s)]).
Proof.
  rewrite upload_file_run. cbv zeta.
  destruct (fs_open sv _ _); [cbn; repeat split; try lia; now left|].
  destruct content as [| b | z | s]; try (cbn; repeat split; try lia; now left).
  destruct (files_create sv _ _ _ _); [cbn; repeat split; try lia; now left|].
  destruct (fs_remove sv _ _); cbn; repeat split; try lia; right; exists s; auto.
Qed.

(** X17: once the temporary file is opened, it is gone after the call
    exactly when the content was a string, Drive took the file and the
    removal went through.  A content that is not a string ([None] for
    an empty week) leaves an empty file behind; after a refusal of
    Drive the file is left with the content. *)
Theorem temp_file_is_removed_only_on_success element_id file_suffix content folder_id so :
  fs_open sv (s_clock so) (temp_name element_id file_suffix) = None ->
  let name := temp_name element_id file_suffix in
  let so' := snd (upload_file sv element_id file_suffix content folder_id so) in
  (disk_read name (disk so') = None <->
   exists s, content = VStr s /\
             files_create sv (S (s_clock so)) folder_id name s = None /\
             fs_remove sv (S (S (s_clock so))) name = None) /\
  ((forall s, content <> VStr s) -> disk_read name (disk so') = Some "") /\
  (forall s, content = VStr s -> disk_read name (disk so') <> None ->
             disk_read name (disk so') = Some s).
Proof.
  intros Ho name so'. subst name so'. rewrite upload_file_run. cbv zeta. rewrite Ho.
  destruct content as [| b | z | s]; cbn [snd disk].
  1-3: rewrite disk_read_put; repeat split; try discriminate; try congruence;
       intros (s & H & _); discriminate.
  destruct (files_create sv _ _ _ _) as [f|] eqn:Ec; cbn [snd disk].
  - rewrite disk_read_put. repeat split; try discriminate; try congruence.
    + intros (s' & [= <-] & H & _). congruence.
    + intros H. exfalso. apply (H s). reflexivity.
  - destruct (fs_remove sv _ _) as [f|] eqn:Er; cbn [snd disk].
    + rewrite disk_read_put. repeat split; try discriminate; try congruence.
      * intros (s' & [= <-] & _ & H). congruence.
      * intros H. exfalso. apply (H s). reflexivity.
    + rewrite disk_read_without. repeat split; try congruence.
      * intros _. exists s. auto.
      * intros H. exfalso. apply (H s). reflexivity.
Qed.

(** X18: when the disk and Drive answer, the file created in the
    folder is named after the id and the suffix and holds the content;
    the call takes three interactions, and a working directory that did
    not hold a file of that name is left as it was. *)
Theorem uploaded_file_holds_the_content element_id file_suffix s folder_id so :
  fs_open sv (s_clock so) (temp_name element_id file_suffix) = None ->
  files_create sv (S (s_clock so)) folder_id (temp_name element_id file_suffix) s = None ->
  fs_remove sv (S (S (s_clock so))) (temp_name element_id file_suffix) = None ->
  upload_file sv element_id file_suffix (VStr s) folder_id so =
    (Ret tt,
     mkStore (s_clock so + 3)
             (disk_without (temp_name element_id file_suffix) (disk so))
             (drive so ++ [(folder_id, temp_name element_id file_suffix, s)])
             (sheets so)) /\
  (disk_read (temp_name element_id file_suffix) (disk so) = None ->
   disk (snd (upload_file sv element_id file_suffix (VStr s) folder_id so)) = disk so).
Proof.
  intros Ho Hc Hr. rewrite upload_file_run. cbv zeta. rewrite Ho, Hc, Hr.
  split.
  - do 2 f_equal. lia.
  - intros Hn. cbn [snd disk]. apply disk_without_absent. exact Hn.
Qed.
End UploadFacts.

Lemma temp_file_witness :
  (disk_read (temp_name (VInt 4) "text")
     (disk (snd (upload_file reliable (VInt 4) "text" VNone folder_postings
                             (initial_store 0)))) = None <->
   exists s, VNone = VStr s /\
             files_create reliable 1 folder_postings (temp_name (VInt 4) "text") s = None /\
             fs_remove reliable 2 (temp_name (VInt 4) "text") = None) /\
  ((forall s, VNone <> VStr s) ->
   disk_read (temp_name (VInt 4) "text")
     (disk (snd (upload_file reliable (VInt 4) "text" VNone folder_postings
                             (initial_store 0)))) = Some "") /\
  (forall s, VNone = VStr s ->
     disk_read (temp_name (VInt 4) "text")
       (disk (snd (upload_file reliable (VInt 4) "text" VNone folder_postings
                               (initial_store 0)))) <> None ->
     disk_read (temp_name (VInt 4) "text")
       (disk (snd (upload_file reliable (VInt 4) "text" VNone folder_postings
                               (initial_store 0)))) = Some s).
Proof.
  apply (temp_file_is_removed_only_on_success reliable (VInt 4) "text" VNone
           folder_postings (initial_store 0)).
  reflexivity.
Defined.

Lemma uploaded_file_witness :
  upload_file reliable (VInt 6) "text" (VStr "Assistant Professor, salary range") folder_postings
              (initial_store 0) =
    (Ret tt,
     mkStore (0 + 3)
             (disk_without (temp_name (VInt 6) "text") [])
             ([] ++ [(folder_postings, temp_name (VInt 6) "text",
                      "Assistant Professor, salary range")])
             []) /\
  (disk_read (temp_name (VInt 6) "text") [] = None ->
   disk (snd (upload_file reliable (VInt 6) "text" (VStr "Assistant Professor, salary range")
                          folder_postings (initial_store 0))) = []).
Proof.
  apply (uploaded_file_holds_the_content reliable (VInt 6) "text"
           "Assistant Professor, salary range" folder_postings (initial_store 0));
    reflexivity.
Defined.


(** ** Writing the new data (lines 694 to 864) *)

Section StorageFacts.
Variable sv : Services.

Lemma update_values_run sid range values so :
  update_values sv sid range values so =
    match values_update sv (s_clock so) sid range values with
    | None => (Ret tt, mkStore (S (s_clock so)) (disk so) (drive so)
                               (sheets so ++ [(sid, range, values)]))
    | Some f => (Raise (External f), tick so)
    end.
Proof. reflexivity. Qed.

Lemma write_postings_after_failures n dc : forall k a so,
  a + k < ntries ->
  (forall j, j < k ->
     values_update sv (s_clock so + j) spreadsheet_postings_id (postings_range n)
                   (map drop_last_two dc) <> None) ->
  values_update sv (s_clock so + k) spreadsheet_postings_id (postings_range n)
                (map drop_last_two dc) = None ->
  write_postings sv (seq a (ntries - a)) n dc so =
    (Ret tt, mkStore (s_clock so + k + 1) (disk so) (drive so)
                     (sheets so ++ [(spreadsheet_postings_id, postings_range n,
                                     map drop_last_two dc)])).
Proof.
  induction k as [|k IH]; intros a so Hak Hfail Hok.
  - replace (ntries - a) with (S (ntries - S a)) by lia.
    cbn [seq write_postings]. unfold stry. cbv zeta. fold (postings_range n).
    rewrite update_values_run. rewrite Nat.add_0_r in Hok. rewrite Hok.
    do 2 f_equal. lia.
  - replace (ntries - a) with (S (ntries - S a)) by lia.
    cbn [seq write_postings]. unfold stry. cbv zeta. fold (postings_range n).
    rewrite update_values_run.
    pose proof (Hfail 0 ltac:(lia)) as H0. rewrite Nat.add_0_r in H0.
    destruct (values_update sv (s_clock so) _ _ _) as [f|]; [|congruence].
    cbn [is_Exception].
    destruct (Nat.ltb_spec a (ntries - 1)) as [_|Hge]; [|unfold ntries in *; lia].
    rewrite IH.
    + unfold tick. cbn [s_clock disk drive sheets]. do 2 f_equal. lia.
    + lia.
    + intros j Hj. unfold tick. cbn [s_clock].
      replace (S (s_clock so) + j) with (s_clock so + S j) by lia. apply Hfail. lia.
    + unfold tick. cbn [s_clock].
      replace (S (s_clock so) + k) with (s_clock so + S k) by lia. exact Hok.
Qed.

Lemma write_postings_exhausted n dc : forall k a f so,
  a + k = ntries -> 0 < k ->
  (forall j, j < k ->
     values_update sv (s_clock so + j) spreadsheet_postings_id (postings_range n)
                   (map drop_last_two dc) = Some (f j)) ->
  write_postings sv (seq a k) n dc so =
    (Raise (External (f (k - 1))),
     mkStore (s_clock so + k) (disk so) (drive so) (sheets so)).
Proof.
  induction k as [|k IH]; intros a f so Hak Hk Hf; [lia|].
  cbn [seq write_postings]. unfold stry. cbv zeta. fold (postings_range n).
  rewrite update_values_run.
  pose proof (Hf 0 ltac:(lia)) as H0. rewrite Nat.add_0_r in H0. rewrite H0.
  cbn [is_Exception].
  destruct (Nat.ltb_spec a (ntries - 1)) as [Hlt|Hge].
  - assert (0 < k) by (unfold ntries in *; lia).
    rewrite (IH (S a) (fun j => f (S j))); try lia.
    + unfold tick. cbn [s_clock disk drive sheets]. f_equal.
      * do 3 f_equal. lia.
      * f_equal. lia.
    + intros j Hj. unfold tick. cbn [s_clock].
      replace (S (s_clock so) + j) with (s_clock so + S j) by lia. apply Hf. lia.
  - assert (k = 0) by (unfold ntries in *; lia). subst k.
    unfold sraise, tick. cbn. do 2 f_equal. lia.
Qed.

(** X20: when the update of the postings sheet is refused on each of
    the 15 attempts, the writing ends with the fault of the last one;
    the URL sheet, Drive and the disk have not been touched. *)
Theorem sheet_exhaustion_is_fatal n nu dc urls f so :
  (forall j, j < ntries ->
     values_update sv (s_clock so + j) spreadsheet_postings_id (postings_range n)
                   (map drop_last_two dc) = Some (f j)) ->
  write_new_data sv n nu dc urls so =
    (Raise (External (f (ntries - 1))),
     mkStore (s_clock so + ntries) (disk so) (drive so) (sheets so)).
Proof.
  intros Hf. unfold write_new_data, sbind.
  rewrite (write_postings_exhausted n dc ntries 0 f so); auto. unfold ntries. lia.
Qed.

Lemma write_postings_effect n dc : forall k a so,
  a + k = ntries -> 0 < k ->
  disk (snd (write_postings sv (seq a k) n dc so)) = disk so /\
  drive (snd (write_postings sv (seq a k) n dc so)) = drive so /\
  ((fst (write_postings sv (seq a k) n dc so) = Ret tt /\
    sheets (snd (write_postings sv (seq a k) n dc so)) =
      sheets so ++ [(spreadsheet_postings_id, postings_range n, map drop_last_two dc)])
   \/ (exists e, fst (write_postings sv (seq a k) n dc so) = Raise e /\
                 sheets (snd (write_postings sv (seq a k) n dc so)) = sheets so)).
Proof.
  induction k as [|k IH]; intros a so Hak Hk; [lia|].
  cbn [seq write_postings]. unfold stry. cbv zeta. fold (postings_range n).
  rewrite update_values_run.
  destruct (values_update sv (s_clock so) _ _ _) as [f|].
  - cbn [is_Exception]. destruct (Nat.ltb_spec a (ntries - 1)) as [Hlt|Hge].
    + destruct (IH (S a) (tick so)) as (Hd & Hr & Hs); try (unfold ntries in *; lia).
      cbn [tick disk drive sheets] in *. auto.
    + cbn. repeat split. right. exists (External f). auto.
  - cbn. repeat split. left. auto.
Qed.

Lemma write_urls_effect n urls : forall k a so,
  a + k = ntries -> 0 < k ->
  disk (snd (write_urls sv (seq a k) n urls so)) = disk so /\
  drive (snd (write_urls sv (seq a k) n urls so)) = drive so /\
  ((fst (write_urls sv (seq a k) n urls so) = Ret tt /\
    sheets (snd (write_urls sv (seq a k) n urls so)) =
      sheets so ++ [(spreadsheet_urls_id, urls_range n, map drop_last_two urls)])
   \/ (exists e, fst (write_urls sv (seq a k) n urls so) = Raise e /\
                 sheets (snd (write_urls sv (seq a k) n urls so)) = sheets so)).
Proof.
  induction k as [|k IH]; intros a so Hak Hk; [lia|].
  cbn [seq write_urls]. unfold stry. cbv zeta. fold (urls_range n).
  rewrite update_values_run.
  destruct (values_update sv (s_clock so) _ _ _) as [f|].
  - cbn [is_Exception]. destruct (Nat.ltb_spec a (ntries - 1)) as [Hlt|Hge].
    + destruct (IH (S a) (tick so)) as (Hd & Hr & Hs); try (unfold ntries in *; lia).
      cbn [tick disk drive sheets] in *. auto.
    + cbn. repeat split. right. exists (External f). auto.
  - cbn. repeat split. left. auto.
Qed.

(** *** The Drive blocks (lines 787 to 864) *)

Lemma upload_step element_id file_suffix content folder_id so :
  fst (upload_file sv element_id file_suffix content folder_id so) = Ret tt /\
  sheets (snd (upload_file sv element_id file_suffix content folder_id so)) = sheets so /\
  List.length (drive so)
    <= List.length (drive (snd (upload_file sv element_id file_suffix content folder_id so)))
    <= List.length (drive so) + 1.
Proof.
  rewrite upload_file_run. cbv zeta.
  destruct (fs_open sv _ _); [cbn; repeat split; lia|].
  destruct content; try (cbn; repeat split; lia).
  destruct (files_create sv _ _ _ _); [cbn; repeat split; lia|].
  destruct (fs_remove sv _ _); cbn; rewrite length_app; cbn; repeat split; lia.
Qed.

Lemma upload_posting_step (element : row) so :
  sheets (snd (upload_posting sv element so)) = sheets so /\
  List.length (drive so) <= List.length (drive (snd (upload_posting sv element so)))
    <= List.length (drive so) + 2 /\
  (2 <= List.length element -> fst (upload_posting sv element so) = Ret tt).
Proof.
  unfold upload_posting, sbind, ssubscript_from_end, ssubscript.
  destruct (nth_error (rev element) 1) as [source_code|] eqn:E2.
  2:{ cbn. repeat split; try lia. intros H. apply nth_error_None in E2.
      rewrite length_rev in E2. lia. }
  unfold sret.
  assert (L1 : 1 < List.length element).
  { assert (H : nth_error (rev element) 1 <> None) by congruence.
    apply nth_error_Some in H. rewrite length_rev in H. exact H. }
  destruct (nth_error (rev element) 0) as [text|] eqn:E1.
  2:{ apply nth_error_None in E1. rewrite length_rev in E1. lia. }
  destruct (nth_error element 0) as [element_id|] eqn:E0.
  2:{ apply nth_error_None in E0. lia. }
  pose proof (upload_step element_id "source_code" source_code folder_postings so) as (R1 & S1 & D1).
  destruct (upload_file sv element_id "source_code" source_code folder_postings so)
    as [[[]|e] so1]; cbn [fst snd] in *; [|discriminate].
  pose proof (upload_step element_id "text" text folder_postings so1) as (R2 & S2 & D2).
  destruct (upload_file sv element_id "text" text folder_postings so1)
    as [[[]|e] so2]; cbn [fst snd] in *; [|discriminate].
  repeat split; intros; try reflexivity; try congruence; lia.
Qed.

Lemma upload_url_step (element : row) so :
  sheets (snd (upload_url sv element so)) = sheets so /\
  List.length (drive so) <= List.length (drive (snd (upload_url sv element so)))
    <= List.length (drive so) + 2 /\
  (2 <= List.length element -> fst (upload_url sv element so) = Ret tt).
Proof.
  unfold upload_url, sbind, ssubscript_from_end, ssubscript.
  destruct (nth_error (rev element) 1) as [source_code|] eqn:E2.
  2:{ cbn. repeat split; try lia. intros H. apply nth_error_None in E2.
      rewrite length_rev in E2. lia. }
  unfold sret.
  assert (L1 : 1 < List.length element).
  { assert (H : nth_error (rev element) 1 <> None) by congruence.
    apply nth_error_Some in H. rewrite length_rev in H. exact H. }
  destruct (nth_error (rev element) 0) as [text|] eqn:E1.
  2:{ apply nth_error_None in E1. rewrite length_rev in E1. lia. }
  destruct (nth_error element 1) as [element_id|] eqn:E0.
  2:{ apply nth_error_None in E0. lia. }
  pose proof (upload_step element_id "source_code" source_code folder_urls so) as (R1 & S1 & D1).
  destruct (upload_file sv element_id "source_code" source_code folder_urls so)
    as [[[]|e] so1]; cbn [fst snd] in *; [|discriminate].
  pose proof (upload_step element_id "text" text folder_urls so1) as (R2 & S2 & D2).
  destruct (upload_file sv element_id "text" text folder_urls so1)
    as [[[]|e] so2]; cbn [fst snd] in *; [|discriminate].
  repeat split; intros; try reflexivity; try congruence; lia.
Qed.

(** What a pass over the records keeps, whatever the records are. *)
Lemma sfor_each_keeps_sheets (f : row -> SM unit) :
  (forall element so,
     sheets (snd (f element so)) = sheets so /\
     List.length (drive so) <= List.length (drive (snd (f element so)))) ->
  forall l so,
    sheets (snd (sfor_each f l so)) = sheets so /\
    List.length (drive so) <= List.length (drive (snd (sfor_each f l so))).
Proof.
  intros Hf. induction l as [|x l IH]; intros so; [cbn; auto|].
  cbn [sfor_each]. unfold sbind.
  destruct (Hf x so) as (S1 & D1).
  destruct (f x so) as [[[]|e] so1]; cbn [fst snd] in *; [|auto].
  destruct (IH so1) as (S2 & D2). split; [congruence|lia].
Qed.

(** A pass over records of two fields or more ends normally, whatever
    the uploads did, and leaves at most two files for each record. *)
Lemma sfor_each_uploads (f : row -> SM unit) :
  (forall element so,
     sheets (snd (f element so)) = sheets so /\
     List.length (drive so) <= List.length (drive (snd (f element so)))
       <= List.length (drive so) + 2 /\
     (2 <= List.length element -> fst (f element so) = Ret tt)) ->
  forall l so,
    Forall (fun element : row => 2 <= List.length element) l ->
    fst (sfor_each f l so) = Ret tt /\
    List.length (drive (snd (sfor_each f l so))) <= List.length (drive so) + 2 * List.length l.
Proof.
  intros Hf. induction l as [|x l IH]; intros so Hl; [cbn; split; [reflexivity|lia]|].
  inversion Hl as [|? ? Hx Hl']; subst.
  cbn [sfor_each]. unfold sbind.
  destruct (Hf x so) as (S1 & D1 & R1). specialize (R1 Hx).
  destruct (f x so) as [[[]|e] so1]; cbn [fst snd] in *; [|discriminate].
  destruct (IH so1 Hl') as (R2 & D2). split; [exact R2|]. cbn [List.length]. lia.
Qed.

Lemma build_run so :
  build sv so =
    match build_drive sv (s_clock so) with
    | None => (Ret tt, tick so)
    | Some f => (Raise (External f), tick so)
    end.
Proof. reflexivity. Qed.

Lemma drive_postings_keeps_sheets dc : forall attempts so,
  sheets (snd (drive_postings sv attempts dc so)) = sheets so /\
  List.length (drive so) <= List.length (drive (snd (drive_postings sv attempts dc so))).
Proof.
  induction attempts as [|a rest IH]; intros so; [cbn; auto|].
  cbn [drive_postings]. unfold stry, sbind. rewrite build_run.
  destruct (build_drive sv (s_clock so)) as [f|].
  - cbn [is_Exception]. destruct (Nat.ltb a (ntries - 1)).
    + destruct (IH (tick so)) as (S1 & D1). cbn [tick sheets drive] in *. auto.
    + cbn. auto.
  - destruct (sfor_each_keeps_sheets (upload_posting sv)
                (fun element so => conj (proj1 (upload_posting_step element so))
                                        (proj1 (proj1 (proj2 (upload_posting_step element so)))))
                dc (tick so)) as (S1 & D1).
    cbn [tick sheets drive] in *.
    destruct (sfor_each (upload_posting sv) dc (tick so)) as [[[]|e] so1]; cbn [fst snd] in *;
      [auto|].
    destruct (is_Exception e); [|cbn; auto].
    destruct (Nat.ltb a (ntries - 1)); [|cbn; auto].
    destruct (IH so1) as (S2 & D2). split; [congruence|lia].
Qed.

Lemma drive_urls_keeps_sheets urls : forall attempts so,
  sheets (snd (drive_urls sv attempts urls so)) = sheets so /\
  List.length (drive so) <= List.length (drive (snd (drive_urls sv attempts urls so))).
Proof.
  induction attempts as [|a rest IH]; intros so; [cbn; auto|].
  cbn [drive_urls]. unfold stry.
  destruct (sfor_each_keeps_sheets (upload_url sv)
              (fun element so => conj (proj1 (upload_url_step element so))
                                      (proj1 (proj1 (proj2 (upload_url_step element so)))))
              urls so) as (S1 & D1).
  destruct (sfor_each (upload_url sv) urls so) as [[[]|e] so1]; cbn [fst snd] in *; [auto|].
  destruct (is_Exception e); [|cbn; auto].
  destruct (Nat.ltb a (ntries - 1)); [|cbn; auto].
  destruct (IH so1) as (S2 & D2). split; [congruence|lia].
Qed.

(** With records of two fields or more, the block for the postings is
    re-tried only when the Drive service could not be built, and then
    nothing has been uploaded. *)
Lemma drive_postings_effect dc :
  Forall (fun element : row => 2 <= List.length element) dc ->
  forall k a so, a + k = ntries -> 0 < k ->
    List.length (drive (snd (drive_postings sv (seq a k) dc so)))
      <= List.length (drive so) + 2 * List.length dc /\
    (fst (drive_postings sv (seq a k) dc so) = Ret tt \/
     (drive (snd (drive_postings sv (seq a k) dc so)) = drive so /\
      forall j, j < k -> build_drive sv (s_clock so + j) <> None)).
Proof.
  intros Hdc. induction k as [|k IH]; intros a so Hak Hk; [lia|].
  cbn [seq drive_postings]. unfold stry, sbind. rewrite build_run.
  destruct (build_drive sv (s_clock so)) as [f|] eqn:Eb.
  - cbn [is_Exception]. destruct (Nat.ltb_spec a (ntries - 1)) as [Hlt|Hge].
    + destruct (IH (S a) (tick so)) as (D1 & R1); try (unfold ntries in *; lia).
      cbn [tick drive s_clock] in *. split; [exact D1|].
      destruct R1 as [R1|(R1 & B1)]; [left; exact R1|right; split; [exact R1|]].
      intros [|j] Hj; [rewrite Nat.add_0_r; congruence|].
      replace (s_clock so + S j) with (S (s_clock so) + j) by lia. apply B1. lia.
    + assert (k = 0) by (unfold ntries in *; lia). subst k.
      cbn. split; [lia|]. right. split; [reflexivity|].
      intros j Hj. replace j with 0 by lia. rewrite Nat.add_0_r. congruence.
  - destruct (sfor_each_uploads (upload_posting sv) (upload_posting_step) dc (tick so) Hdc)
      as (R1 & D1).
    cbn [tick drive] in *.
    destruct (sfor_each (upload_posting sv) dc (tick so)) as [[[]|e] so1]; cbn [fst snd] in *;
      [|discriminate].
    split; [exact D1|left; reflexivity].
Qed.

(** With records of two fields or more, the block for the embedded URLs
    makes one pass and ends normally. *)
Lemma drive_urls_effect urls so :
  Forall (fun element : row => 2 <= List.length element) urls ->
  fst (drive_urls sv (seq 0 ntries) urls so) = Ret tt /\
  List.length (drive (snd (drive_urls sv (seq 0 ntries) urls so)))
    <= List.length (drive so) + 2 * List.length urls.
Proof.
  intros Hu. change (seq 0 ntries) with (0 :: seq 1 (ntries - 1)).
  cbn [drive_urls]. unfold stry.
  destruct (sfor_each_uploads (upload_url sv) (upload_url_step) urls so Hu) as (R1 & D1).
  destruct (sfor_each (upload_url sv) urls so) as [[[]|e] so1]; cbn [fst snd] in *;
    [|discriminate].
  split; [reflexivity|exact D1].
Qed.


Lemma length_drop_last_two (element : row) :
  List.length (drop_last_two element) = List.length element - 2.
Proof. unfold drop_last_two. rewrite length_firstn. lia. Qed.

(** The sheets gain the update of the postings, then the update of the
    URLs, or a prefix of the two. *)
Lemma write_new_data_sheets n nu dc urls so :
  exists k,
    sheets (snd (write_new_data sv n nu dc urls so)) =
      sheets so ++ firstn k [postings_update n dc; urls_update nu urls].
Proof.
  unfold write_new_data, sbind.
  destruct (write_postings_effect n dc ntries 0 so) as (_ & _ & H1);
    [reflexivity|unfold ntries; lia|].
  destruct (write_postings sv (seq 0 ntries) n dc so) as [[[]|e1] so1]; cbn [fst snd] in *.
  2:{ exists 0. destruct H1 as [(H1 & _)|(e & _ & H1)]; [discriminate|].
      rewrite H1, app_nil_r. reflexivity. }
  destruct H1 as [(_ & H1)|(e & H1 & _)]; [|discriminate].
  destruct (write_urls_effect nu urls ntries 0 so1) as (_ & _ & H2);
    [reflexivity|unfold ntries; lia|].
  destruct (write_urls sv (seq 0 ntries) nu urls so1) as [[[]|e2] so2]; cbn [fst snd] in *.
  2:{ exists 1. destruct H2 as [(H2 & _)|(e & _ & H2)]; [discriminate|].
      rewrite H2, H1. reflexivity. }
  destruct H2 as [(_ & H2)|(e & H2 & _)]; [|discriminate].
  exists 2.
  destruct (drive_postings_keeps_sheets dc (seq 0 ntries) so2) as (H3 & _).
  destruct (drive_postings sv (seq 0 ntries) dc so2) as [[[]|e3] so3]; cbn [fst snd] in *.
  2:{ rewrite H3, H2, H1, <- app_assoc. reflexivity. }
  destruct (drive_urls_keeps_sheets urls (seq 0 ntries) so3) as (H4 & _).
  rewrite H4, H3, H2, H1, <- app_assoc. reflexivity.
Qed.

Lemma drive_phase_effect dc urls so :
  Forall (fun element : row => 2 <= List.length element) dc ->
  Forall (fun element : row => 2 <= List.length element) urls ->
  List.length (drive (snd (drive_phase sv dc urls so)))
    <= List.length (drive so) + 2 * (List.length dc + List.length urls) /\
  (fst (drive_phase sv dc urls so) = Ret tt \/
   (drive (snd (drive_phase sv dc urls so)) = drive so /\
    forall j, j < ntries -> build_drive sv (s_clock so + j) <> None)).
Proof.
  intros Hdc Hu. unfold drive_phase, sbind.
  destruct (drive_postings_effect dc Hdc ntries 0 so) as (D1 & R1);
    [reflexivity|unfold ntries; lia|].
  destruct (drive_postings sv (seq 0 ntries) dc so) as [[[]|e] so1]; cbn [fst snd] in *.
  - destruct (drive_urls_effect urls so1 Hu) as (R2 & D2).
    split; [lia|left; exact R2].
  - split; [lia|]. destruct R1 as [R1|R1]; [discriminate|right; exact R1].
Qed.

Lemma write_new_data_drive_bound n nu dc urls so :
  Forall (fun element : row => 2 <= List.length element) dc ->
  Forall (fun element : row => 2 <= List.length element) urls ->
  List.length (drive (snd (write_new_data sv n nu dc urls so)))
    <= List.length (drive so) + 2 * (List.length dc + List.length urls).
Proof.
  intros Hdc Hu. unfold write_new_data, sbind.
  destruct (write_postings_effect n dc ntries 0 so) as (_ & H1 & _);
    [reflexivity|unfold ntries; lia|].
  destruct (write_postings sv (seq 0 ntries) n dc so) as [[[]|e1] so1]; cbn [fst snd] in *;
    [|rewrite H1; lia].
  destruct (write_urls_effect nu urls ntries 0 so1) as (_ & H2 & _);
    [reflexivity|unfold ntries; lia|].
  destruct (write_urls sv (seq 0 ntries) nu urls so1) as [[[]|e2] so2]; cbn [fst snd] in *;
    [|rewrite H2, H1; lia].
  destruct (drive_phase_effect dc urls so2 Hdc Hu) as (D & _).
  unfold drive_phase, sbind in D. rewrite H2, H1 in D. exact D.
Qed.

(** X19: when the update of the postings sheet is refused [k] times,
    with [k] below 15, and then accepted, the block ends normally after
    [k + 1] calls and the sheet has received exactly one update: the
    records without their last two fields, at the range that starts on
    the row after the [n_compilations] rows read. *)
Theorem sheet_write_retries_until_success n dc k so :
  k < ntries ->
  (forall j, j < k ->
     values_update sv (s_clock so + j) spreadsheet_postings_id (postings_range n)
                   (map drop_last_two dc) <> None) ->
  values_update sv (s_clock so + k) spreadsheet_postings_id (postings_range n)
                (map drop_last_two dc) = None ->
  write_postings sv (seq 0 ntries) n dc so =
    (Ret tt, mkStore (s_clock so + k + 1) (disk so) (drive so)
                     (sheets so ++ [postings_update n dc])).
Proof.
  intros Hk Hfail Hok.
  change (seq 0 ntries) with (seq 0 (ntries - 0)).
  apply write_postings_after_failures; [lia|exact Hfail|exact Hok].
Qed.

(** X21: the writing sends each sheet at most one update, the postings
    before the URLs, and Drive receives nothing unless both sheets have
    been written: a writing that stops at a sheet ends with a fault and
    leaves Drive as it was. *)
Theorem sheets_are_written_before_drive n nu dc urls so :
  (sheets (snd (write_new_data sv n nu dc urls so)) = sheets so /\
   drive (snd (write_new_data sv n nu dc urls so)) = drive so /\
   exists e, fst (write_new_data sv n nu dc urls so) = Raise e) \/
  (sheets (snd (write_new_data sv n nu dc urls so)) = sheets so ++ [postings_update n dc] /\
   drive (snd (write_new_data sv n nu dc urls so)) = drive so /\
   exists e, fst (write_new_data sv n nu dc urls so) = Raise e) \/
  sheets (snd (write_new_data sv n nu dc urls so)) =
    sheets so ++ [postings_update n dc; urls_update nu urls].
Proof.
  unfold write_new_data, sbind.
  destruct (write_postings_effect n dc ntries 0 so) as (_ & D1 & H1);
    [reflexivity|unfold ntries; lia|].
  destruct (write_postings sv (seq 0 ntries) n dc so) as [[[]|e1] so1]; cbn [fst snd] in *.
  2:{ left. destruct H1 as [(H1 & _)|(e & _ & H1)]; [discriminate|]. eauto. }
  destruct H1 as [(_ & H1)|(e & H1 & _)]; [|discriminate].
  destruct (write_urls_effect nu urls ntries 0 so1) as (_ & D2 & H2);
    [reflexivity|unfold ntries; lia|].
  destruct (write_urls sv (seq 0 ntries) nu urls so1) as [[[]|e2] so2]; cbn [fst snd] in *.
  2:{ right; left. destruct H2 as [(H2 & _)|(e & _ & H2)]; [discriminate|].
      rewrite H2, D2. eauto. }
  destruct H2 as [(_ & H2)|(e & H2 & _)]; [|discriminate].
  right; right.
  destruct (drive_postings_keeps_sheets dc (seq 0 ntries) so2) as (H3 & _).
  destruct (drive_postings sv (seq 0 ntries) dc so2) as [[[]|e3] so3]; cbn [fst snd] in *.
  2:{ rewrite H3, H2, H1, <- app_assoc. reflexivity. }
  destruct (drive_urls_keeps_sheets urls (seq 0 ntries) so3) as (H4 & _).
  rewrite H4, H3, H2, H1, <- app_assoc. reflexivity.
Qed.

(** X23: with records of two fields or more, the two Drive blocks
    together fail in one way only, when the Drive service could not be
    built on any of the 15 attempts, and then nothing was uploaded. An
    upload that fails is neither tried again nor reported: the blocks
    end normally, leave the sheets alone and create at most two files
    for each record. *)
Theorem drive_blocks_fail_only_without_service dc urls so :
  Forall (fun element : row => 2 <= List.length element) dc ->
  Forall (fun element : row => 2 <= List.length element) urls ->
  sheets (snd (drive_phase sv dc urls so)) = sheets so /\
  List.length (drive (snd (drive_phase sv dc urls so)))
    <= List.length (drive so) + 2 * (List.length dc + List.length urls) /\
  (fst (drive_phase sv dc urls so) = Ret tt \/
   (drive (snd (drive_phase sv dc urls so)) = drive so /\
    forall j, j < ntries -> build_drive sv (s_clock so + j) <> None)).
Proof.
  intros Hdc Hu. split; [|apply drive_phase_effect; assumption].
  unfold drive_phase, sbind.
  destruct (drive_postings_keeps_sheets dc (seq 0 ntries) so) as (H1 & _).
  destruct (drive_postings sv (seq 0 ntries) dc so) as [[[]|e] so1]; cbn [fst snd] in *;
    [|exact H1].
  destruct (drive_urls_keeps_sheets urls (seq 0 ntries) so1) as (H2 & _). congruence.
Qed.

End StorageFacts.

(** *** The whole run *)

Lemma well_shaped_two_fields st :
  well_shaped st ->
  Forall (fun element : row => 2 <= List.length element) (data_compilation st) /\
  Forall (fun element : row => 2 <= List.length element)
         (data_compilation_urls_inside_messages st).
Proof.
  intros (H1 & H2). split; eapply Forall_impl; try eassumption; cbn; intros r Hr; lia.
Qed.

(** X22: whatever the outside and the services answer, every update the
    run sends to the postings sheet has rows of five cells and every
    update it sends to the URL sheet rows of seven: the markup and the
    text of a record never reach a sheet. *)
Theorem sheets_get_five_and_seven_cells (w : World) (sv : Services)
  (rows : list (list string)) (n_urls : nat) :
  Forall (fun u : string * string * list row =>
            (fst (fst u) = spreadsheet_postings_id /\
             snd (fst u) = postings_range (List.length rows) /\
             Forall (fun r : row => List.length r = 5) (snd u)) \/
            (fst (fst u) = spreadsheet_urls_id /\
             snd (fst u) = urls_range n_urls /\
             Forall (fun r : row => List.length r = 7) (snd u)))
         (sheets (snd (main w sv rows n_urls))).
Proof.
  unfold main.
  pose proof (script_keeps_shape w n_urls rows initial_state
                (conj (Forall_nil _) (Forall_nil _))) as (Hp & Hu).
  unfold exec in Hp, Hu.
  destruct (script w rows n_urls initial_state) as [[u|e] st]; cbn [snd] in *;
    [|constructor].
  destruct (write_new_data_sheets sv (List.length rows) n_urls (data_compilation st)
              (data_compilation_urls_inside_messages st) (initial_store (clock st)))
    as (k & Hk).
  destruct (write_new_data sv (List.length rows) n_urls (data_compilation st)
              (data_compilation_urls_inside_messages st) (initial_store (clock st)))
    as [r so]; cbn [fst snd] in *.
  rewrite Hk. cbn [initial_store sheets app].
  assert (H5 : Forall (fun r : row => List.length r = 5)
                      (map drop_last_two (data_compilation st))).
  { apply Forall_map. eapply Forall_impl; [|exact Hp]. cbn. intros a Ha.
    rewrite length_drop_last_two, Ha. reflexivity. }
  assert (H7 : Forall (fun r : row => List.length r = 7)
                      (map drop_last_two (data_compilation_urls_inside_messages st))).
  { apply Forall_map. eapply Forall_impl; [|exact Hu]. cbn. intros a Ha.
    rewrite length_drop_last_two, Ha. reflexivity. }
  assert (HP : (fun u : string * string * list row =>
            (fst (fst u) = spreadsheet_postings_id /\
             snd (fst u) = postings_range (List.length rows) /\
             Forall (fun r : row => List.length r = 5) (snd u)) \/
            (fst (fst u) = spreadsheet_urls_id /\
             snd (fst u) = urls_range n_urls /\
             Forall (fun r : row => List.length r = 7) (snd u)))
          (postings_update (List.length rows) (data_compilation st))).
  { left. cbn [postings_update fst snd]. auto. }
  assert (HU : (fun u : string * string * list row =>
            (fst (fst u) = spreadsheet_postings_id /\
             snd (fst u) = postings_range (List.length rows) /\
             Forall (fun r : row => List.length r = 5) (snd u)) \/
            (fst (fst u) = spreadsheet_urls_id /\
             snd (fst u) = urls_range n_urls /\
             Forall (fun r : row => List.length r = 7) (snd u)))
          (urls_update n_urls (data_compilation_urls_inside_messages st))).
  { right. cbn [urls_update fst snd]. auto. }
  destruct k as [|[|k]]; cbn [firstn]; rewrite ?firstn_nil.
  - constructor.
  - constructor; [exact HP|constructor].
  - constructor; [exact HP|constructor; [exact HU|constructor]].
Qed.

(** X24: whatever the outside and the services answer, the run leaves
    in Drive at most two files for each record it holds: no record is
    uploaded twice, although its uploads sit inside a re-try block. *)
Theorem drive_gets_at_most_two_files_per_record (w : World) (sv : Services)
  (rows : list (list string)) (n_urls : nat) :
  List.length (drive (snd (main w sv rows n_urls)))
    <= 2 * (List.length (data_compilation (snd (fst (main w sv rows n_urls)))) +
            List.length (data_compilation_urls_inside_messages
                           (snd (fst (main w sv rows n_urls))))).
Proof.
  unfold main.
  pose proof (script_keeps_shape w n_urls rows initial_state
                (conj (Forall_nil _) (Forall_nil _))) as Hs.
  unfold exec in Hs.
  destruct (script w rows n_urls initial_state) as [[u|e] st]; cbn [snd] in *;
    [|cbn; lia].
  destruct (well_shaped_two_fields st Hs) as (Hp & Hu).
  pose proof (write_new_data_drive_bound sv (List.length rows) n_urls (data_compilation st)
                (data_compilation_urls_inside_messages st) (initial_store (clock st)) Hp Hu)
    as Hb.
  destruct (write_new_data sv (List.length rows) n_urls (data_compilation st)
              (data_compilation_urls_inside_messages st) (initial_store (clock st)))
    as [r so]; cbn [fst snd] in *.
  cbn [initial_store drive List.length] in Hb. lia.
Qed.

Lemma sheet_write_retries_witness :
  write_postings sheets_flaky (seq 0 ntries) 3 [sample_posting] (initial_store 0) =
    (Ret tt, mkStore (0 + 2 + 1) [] []
                     ([] ++ [postings_update 3 [sample_posting]])).
Proof.
  apply (sheet_write_retries_until_success sheets_flaky 3 [sample_posting] 2 (initial_store 0)).
  - unfold ntries. lia.
  - intros j Hj. destruct j as [|[|j]]; [discriminate|discriminate|lia].
  - reflexivity.
Defined.

Lemma sheet_exhaustion_witness :
  write_new_data sheets_down 3 7 [sample_posting] [sample_url] (initial_store 0) =
    (Raise (External (Fault "HttpError 429")), mkStore (0 + ntries) [] [] []).
Proof.
  apply (sheet_exhaustion_is_fatal sheets_down 3 7 [sample_posting] [sample_url]
           (fun _ => Fault "HttpError 429") (initial_store 0)).
  intros j Hj. reflexivity.
Defined.

Lemma drive_blocks_witness :
  sheets (snd (drive_phase drive_down [sample_posting] [sample_url] (initial_store 0))) = [] /\
  List.length (drive (snd (drive_phase drive_down [sample_posting] [sample_url]
                                       (initial_store 0))))
    <= 0 + 2 * (1 + 1) /\
  (fst (drive_phase drive_down [sample_posting] [sample_url] (initial_store 0)) = Ret tt \/
   (drive (snd (drive_phase drive_down [sample_posting] [sample_url] (initial_store 0))) = [] /\
    forall j, j < ntries -> build_drive drive_down (0 + j) <> None)).
Proof.
  apply (drive_blocks_fail_only_without_service drive_down [sample_posting] [sample_url]
           (initial_store 0)).
  - repeat constructor.
  - repeat constructor.
Defined.


(** * The run as a whole *)

Section RunFacts.

Variable w : World.

(** The script on a ledger of one cell per row whose last two week
    labels are [prev] and [last]. *)
Lemma script_run cells ws prev last n_urls st :
  dict_fromkeys cells = ws ++ [prev; last] ->
  script w (map (fun c => [c]) cells) n_urls st =
    match first_block w last prev (seq 0 ntries) st with
    | (Ret mcd, st1) =>
        match scrape_messages w (List.length cells) mcd st1 with
        | (Ret _, st2) => scrape_urls_inside_messages w n_urls st2
        | (Raise e, st2) => (Raise e, st2)
        end
    | (Raise e, st1) => (Raise e, st1)
    end.
Proof.
  intros Hw. unfold script, bind. rewrite first_cells_cells, Hw.
  unfold subscript_from_end, subscript. rewrite rev_app_distr.
  cbn [rev app nth_error]. unfold ret. rewrite length_map.
  destruct (first_block w last prev (seq 0 ntries) st) as [[mcd|e] st1]; [|reflexivity].
  destruct (scrape_messages w (List.length cells) mcd st1) as [[[]|e] st2]; reflexivity.
Qed.

(** The posting records a run holds when the loop over them starts
    have seven fields each. *)
Lemma postings_after_messages last prev n mcd st1 st2 :
  first_block w last prev (seq 0 ntries) initial_state = (Ret mcd, st1) ->
  scrape_messages w n mcd st1 = (Ret tt, st2) ->
  Forall (fun r : row => List.length r = 7) (data_compilation st2) /\
  data_compilation_urls_inside_messages st2 = [].
Proof.
  intros H1 H2.
  destruct (keeps_data_first_block w last prev (seq 0 ntries) initial_state)
    as (_ & D1 & U1).
  unfold exec in D1, U1. rewrite H1 in D1, U1. cbn [snd initial_state data_compilation
    data_compilation_urls_inside_messages] in D1, U1.
  destruct (scrape_messages_grows w n mcd st1) as (U2 & new & D2 & F2).
  unfold exec in U2, D2. rewrite H2 in U2, D2. cbn [snd] in U2, D2.
  split; [|congruence].
  rewrite D2, D1. exact F2.
Qed.

(** C7: an embedded URL is fetched through the bounded re-try of
    [get_selenium_response].  When, in a run that has reached the loop
    over the posting records, each of the [max_attempts] attempts at an
    embedded URL faults, exactly that many attempts are made and the
    last fault ends the script: it passes through both loops, no
    record, sentinel or other, is appended for the URL, the later URLs
    and postings are not visited, the exit status is not zero and
    nothing is written to the sheets or to Drive. *)
Theorem embedded_fetch_exhaustion_is_fatal
  (sv : Storage.Services) cells ws prev last n_urls mcd st1 st2
  ps p rest st3 text pre u us st4 f :
  dict_fromkeys cells = ws ++ [prev; last] ->
  first_block w last prev (seq 0 ntries) initial_state = (Ret mcd, st1) ->
  scrape_messages w (List.length cells) mcd st1 = (Ret tt, st2) ->
  data_compilation st2 = ps ++ p :: rest ->
  for_each (scrape_urls_inside_message w n_urls) ps st2 = (Ret tt, st3) ->
  nth_error (rev p) 0 = Some text ->
  extracted w text = inr (pre ++ u :: us) ->
  for_each (scrape_url_in_message w n_urls p) pre st3 = (Ret tt, st4) ->
  0 < max_attempts w ->
  (forall k, k < max_attempts w -> fetch_rendered w (clock st4 + k) u = inl (f k)) ->
  get_selenium_response w u st4 =
    (Raise (External (f (max_attempts w - 1))),
     set_clock (clock st4 + max_attempts w) st4) /\
  script w (map (fun c => [c]) cells) n_urls initial_state =
    (Raise (External (f (max_attempts w - 1))),
     set_clock (clock st4 + max_attempts w) st4) /\
  exit_code (outcome (script w (map (fun c => [c]) cells) n_urls) initial_state) = 1%Z /\
  data_compilation_urls_inside_messages
    (exec (script w (map (fun c => [c]) cells) n_urls) initial_state) =
    data_compilation_urls_inside_messages st4 /\
  main w sv (map (fun c => [c]) cells) n_urls =
    (Raise (External (f (max_attempts w - 1))),
     set_clock (clock st4 + max_attempts w) st4,
     Storage.initial_store (clock st4 + max_attempts w)).
Proof.
  intros Hw H1 H2 Hd Hps Ht Hx Hpre Hpos Hf.
  assert (Hget : get_selenium_response w u st4 =
                 (Raise (External (f (max_attempts w - 1))),
                  set_clock (clock st4 + max_attempts w) st4)).
  { unfold get_selenium_response, execute.
    rewrite (execute_retrying_exhausted w u (max_attempts w - 1) f st4).
    - do 3 f_equal. lia.
    - intros k Hk. apply Hf. lia. }
  assert (Hp : List.length p = 7).
  { destruct (postings_after_messages last prev _ mcd st1 st2 H1 H2) as (F & _).
    rewrite Hd in F. apply Forall_app in F. destruct F as (_ & F).
    inversion F; assumption. }
  assert (Hrun : script w (map (fun c => [c]) cells) n_urls initial_state =
                 (Raise (External (f (max_attempts w - 1))),
                  set_clock (clock st4 + max_attempts w) st4)).
  { rewrite (script_run cells ws prev last n_urls initial_state Hw), H1, H2.
    unfold scrape_urls_inside_messages. rewrite Hd, for_each_app. unfold bind at 1.
    rewrite Hps. cbn [for_each]. unfold bind at 1.
    unfold scrape_urls_inside_message at 1. unfold bind at 1.
    unfold subscript_from_end, subscript. rewrite Ht. unfold ret at 1.
    unfold bind at 1. rewrite extract_urls_run, Hx.
    rewrite for_each_app. unfold bind at 1. rewrite Hpre.
    cbn [for_each]. unfold bind at 1. unfold scrape_url_in_message.
    destruct p as [|x1 [|x2 [|x3 p]]]; simpl in Hp; try lia.
    unfold bind, subscript, len_urls_inside_messages, datetime_now. simpl. unfold ret.
    rewrite Hget. reflexivity. }
  split; [exact Hget|]. split; [exact Hrun|].
  unfold outcome, exec, main. rewrite Hrun. repeat split.
Qed.

End RunFacts.

(** ** The order of the posting records *)

Lemma laid_out_app n : forall o1 o2 from r1 r2,
  laid_out n o1 from r1 ->
  laid_out n o2 (from + List.length r1) r2 ->
  laid_out n (o1 ++ o2) from (r1 ++ r2).
Proof.
  induction o1 as [|t o1 IH]; intros o2 from r1 r2 H1 H2.
  - cbn [laid_out] in H1. subst r1. cbn [app List.length] in *.
    rewrite Nat.add_0_r in H2. exact H2.
  - cbn [laid_out] in H1. destruct H1 as (b & r1' & -> & Hb & H1).
    cbn [app laid_out]. exists b, (r1' ++ r2). split; [apply eq_sym, app_assoc|].
    split; [exact Hb|]. apply IH; [exact H1|].
    rewrite length_app, Nat.add_assoc in H2. exact H2.
Qed.

(** Every record of a layout carries the id of a position at or after
    the layout's start. *)
Lemma laid_out_ids_from n : forall order from records,
  laid_out n order from records ->
  forall r, In r records ->
    exists m, from <= m /\ record_id r = Some (Z.of_nat (n + m + 1)).
Proof.
  induction order as [|t order IH]; intros from records H r Hr.
  - cbn [laid_out] in H. subst records. destruct Hr.
  - cbn [laid_out] in H. destruct H as (b & records' & -> & (_ & Hb & _) & H).
    apply in_app_or in Hr. destruct Hr as [Hr|Hr].
    + exists from. split; [lia|]. apply (Hb r Hr).
    + destruct (IH _ _ H r Hr) as (m & Hm & Hid). exists m. split; [lia|exact Hid].
Qed.

Lemma laid_out_ids_follow_order n : forall order from records,
  laid_out n order from records -> ids_follow_order records.
Proof.
  induction order as [|t order IH]; intros from records H i j ra rb Hij Ha Hb.
  - cbn [laid_out] in H. subst records. destruct i; discriminate.
  - cbn [laid_out] in H. destruct H as (b & records' & -> & (Hne & Hid & Hu) & H).
    destruct (Nat.lt_ge_cases i (List.length b)) as [Hi|Hi].
    + rewrite nth_error_app1 in Ha by exact Hi. apply nth_error_In in Ha.
      destruct (Hid ra Ha) as (Ia & Wa).
      destruct (Nat.lt_ge_cases j (List.length b)) as [Hj|Hj].
      * rewrite nth_error_app1 in Hb by exact Hj. apply nth_error_In in Hb.
        destruct (Hid rb Hb) as (Ib & Wb).
        eexists; eexists. split; [exact Ia|]. split; [exact Ib|]. split; [lia|].
        intros [Hw|Hw]; [congruence|].
        destruct (snd t) as [u|].
        -- rewrite (Hu ra Ha), (Hu rb Hb) in Hw. congruence.
        -- destruct Hu as (r & -> & _).
           exfalso. simpl in Hi, Hj. lia.
      * rewrite nth_error_app2 in Hb by exact Hj. apply nth_error_In in Hb.
        destruct (laid_out_ids_from _ _ _ _ H rb Hb) as (m & Hm & Ib).
        assert (0 < List.length b) by (destruct b; [congruence|cbn; lia]).
        eexists; eexists. split; [exact Ia|]. split; [exact Ib|]. split; lia.
    + rewrite nth_error_app2 in Ha by exact Hi.
      rewrite nth_error_app2 in Hb by lia.
      apply (IH _ _ H (i - List.length b) (j - List.length b) ra rb); [lia|exact Ha|exact Hb].
Qed.

Section OrderFacts.

Variable w : World.
Variable n_compilations : nat.

(** The loop over a week's URLs lays their records out in document
    order. *)
Lemma postings_laid_out week : forall urls st,
  exists st' new,
    for_each (scrape_posting w n_compilations week) urls st = (Ret tt, st') /\
    data_compilation st' = data_compilation st ++ new /\
    laid_out n_compilations (map (fun u => (week, Some u)) urls)
             (List.length (data_compilation st)) new /\
    (urls <> [] -> url_binding st' <> None).
Proof.
  induction urls as [|u urls IH]; intros st.
  - exists st, []. cbn. rewrite app_nil_r. repeat split; auto.
  - destruct (scrape_posting_appended w n_compilations week u st)
      as (st1 & new1 & R1 & D1 & N1 & P1).
    destruct (scrape_posting_spec w n_compilations week u st) as (st1' & R1' & B1 & _).
    assert (st1' = st1) by congruence. subst st1'.
    destruct (IH st1) as (st2 & new2 & R2 & D2 & L2 & B2).
    exists st2, (new1 ++ new2). cbn [for_each]. unfold bind. rewrite R1, R2.
    split; [reflexivity|]. split; [rewrite D2, D1, app_assoc; reflexivity|].
    split.
    + cbn [map laid_out]. exists new1, new2. split; [reflexivity|]. split.
      * split; [exact N1|]. cbn [fst snd]. split.
        -- intros r Hr. destruct (P1 r Hr) as (I & W & _). auto.
        -- intros r Hr. apply (P1 r Hr).
      * rewrite D1, length_app in L2. exact L2.
    + intros _. destruct urls as [|u' urls'].
      * cbn in R2. injection R2 as <-. congruence.
      * apply B2. discriminate.
Qed.

(** The loop over the missing compilations, when it does not start on
    a week without posting URL, ends normally and lays the records out
    in its processing order. *)
Lemma scrape_messages_laid_out : forall mcd st,
  (url_binding st <> None \/ forall week rest, mcd <> (week, []) :: rest) ->
  exists st' new,
    scrape_messages w n_compilations mcd st = (Ret tt, st') /\
    data_compilation st' = data_compilation st ++ new /\
    laid_out n_compilations (processing_order mcd)
             (List.length (data_compilation st)) new /\
    (url_binding st <> None -> url_binding st' <> None).
Proof.
  induction mcd as [|[week urls] mcd IH]; intros st Hb.
  - exists st, []. cbn. rewrite app_nil_r. auto.
  - unfold scrape_messages. cbn [for_each]. fold (scrape_messages w n_compilations mcd).
    unfold bind. destruct urls as [|u0 urls].
    + assert (Hu : url_binding st <> None).
      { destruct Hb as [Hb|Hb]; [exact Hb|]. exfalso. apply (Hb week mcd). reflexivity. }
      rewrite empty_week_run. destruct (url_binding st) as [u|] eqn:Eu; [|congruence].
      set (rec := [VInt (Z.of_nat (n_compilations + List.length (data_compilation st) + 1));
                   VStr week; VStr u; VStr (now w (clock st)); VNone; VNone; VNone]).
      destruct (IH (set_data_compilation (data_compilation st ++ [rec]) st))
        as (st2 & new2 & R2 & D2 & L2 & B2).
      { left. cbn. congruence. }
      rewrite R2. exists st2, ([rec] ++ new2). split; [reflexivity|].
      cbn [set_data_compilation data_compilation url_binding] in D2, L2, B2.
      split; [|split].
      * rewrite D2, <- app_assoc. reflexivity.
      * change (processing_order ((week, []) :: mcd))
          with ([(week, @None string)] ++ processing_order mcd).
        apply laid_out_app.
        -- cbn [laid_out]. exists [rec], []. split; [reflexivity|]. split; [|reflexivity].
           split; [discriminate|]. cbn [fst snd]. split.
           ++ intros r [<-|[]]. split; reflexivity.
           ++ exists rec. split; reflexivity.
        -- rewrite length_app in L2. exact L2.
      * intros _. apply B2. congruence.
    + rewrite nonempty_week_run.
      destruct (postings_laid_out week (u0 :: urls) st) as (st1 & new1 & R1 & D1 & L1 & B1).
      rewrite R1.
      destruct (IH st1) as (st2 & new2 & R2 & D2 & L2 & B2).
      { left. apply B1. discriminate. }
      rewrite R2. exists st2, (new1 ++ new2). split; [reflexivity|]. split; [|split].
      * rewrite D2, D1, app_assoc. reflexivity.
      * change (processing_order ((week, u0 :: urls) :: mcd))
          with (map (fun u => (week, Some u)) (u0 :: urls) ++ processing_order mcd).
        apply laid_out_app; [exact L1|].
        rewrite D1, length_app in L2. exact L2.
      * intros _. apply B2, B1. discriminate.
Qed.

End OrderFacts.

Section OrderOfTheRun.

Variable w : World.

(** C6: in a run whose first block read the missing compilations
    [mcd], the archive's third entry (the older week) was opened, when
    new, before the second and is listed first; and the posting records
    the script holds at its end are exactly those of the weeks in the
    order listed and, within a week, of its posting URLs in document
    order, so that a record of an earlier URL has a smaller id than a
    record of a later one. *)
Theorem oldest_missing_first_then_document_order cells ws prev last n_urls mcd st1 :
  dict_fromkeys cells = ws ++ [prev; last] ->
  first_block w last prev (seq 0 ntries) initial_state = (Ret mcd, st1) ->
  (forall week rest, mcd <> (week, []) :: rest) ->
  (exists s, oldest_first w last s mcd st1) /\
  laid_out (List.length cells) (processing_order mcd) 0
    (data_compilation (exec (script w (map (fun c => [c]) cells) n_urls) initial_state)) /\
  ids_follow_order
    (data_compilation (exec (script w (map (fun c => [c]) cells) n_urls) initial_state)).
Proof.
  intros Hw H1 Hne.
  assert (Hlay : laid_out (List.length cells) (processing_order mcd) 0
            (data_compilation
               (exec (script w (map (fun c => [c]) cells) n_urls) initial_state))).
  { unfold exec. rewrite (script_run w cells ws prev last n_urls initial_state Hw), H1.
    destruct (keeps_data_first_block w last prev (seq 0 ntries) initial_state)
      as (_ & D1 & _).
    unfold exec in D1. rewrite H1 in D1.
    cbn [snd initial_state data_compilation] in D1.
    destruct (scrape_messages_laid_out w (List.length cells) mcd st1 (or_intror Hne))
      as (st2 & new & R2 & D2 & L2 & _).
    rewrite R2. rewrite D1 in D2, L2. cbn [app List.length] in D2, L2.
    unfold scrape_urls_inside_messages.
    destruct (embedded_phase_grows w n_urls (data_compilation st2) st2) as (D3 & _).
    unfold exec in D3. rewrite D3, D2. exact L2. }
  split; [|split; [exact Hlay|exact (laid_out_ids_follow_order _ _ _ _ Hlay)]].
  destruct (first_block_ret w last prev _ _ _ _ H1) as [s Hs].
  exists s. exact (first_block_body_ret w last prev s mcd st1 Hs).
Qed.

End OrderOfTheRun.

(** ** Posting records without text *)

Section WithoutText.

Variable w : World.
Variable n_urls : nat.


End WithoutText.

(** ** The runs on the concrete outsides *)

(** C8: August's Week 1 is new and has no qualifying link, and it is
    the first week the run processes.  The branch for a week without
    posting URL (lines 610 to 614, "so that the script keeps running")
    does not emit the record with null salary, markup and text: the
    list display reads [url], which no iteration has bound, and raises
    NameError before the append.  The script ends there with no record
    at all, Week 2 and its two postings are never scraped, and nothing
    reaches the sheets or Drive. *)
Theorem empty_first_week_emits_nothing :
  outcome (first_block outside "July 2024, Week 4" "July 2024, Week 3" (seq 0 ntries))
          initial_state
    = Ret [("August 2024, Week 1", []);
           ("August 2024, Week 2", [unreachable_posting; plain_posting])] /\
  outcome (script outside ledger_july 5) initial_state = Raise (NameError "url") /\
  exit_code (outcome (script outside ledger_july 5) initial_state) = 1%Z /\
  data_compilation (exec (script outside ledger_july 5) initial_state) = [] /\
  visited (exec (script outside ledger_july 5) initial_state)
    = [url_login; week1_url; week2_url] /\
  Storage.sheets (snd (main outside Storage.reliable ledger_july 5)) = [] /\
  Storage.drive (snd (main outside Storage.reliable ledger_july 5)) = [].
Proof. vm_compute. repeat split. Qed.

Lemma oldest_missing_first_witness :
  (exists s,
     oldest_first TwoWeeks.outside "July 2024, Week 4" s
       [("August 2024, Week 1", [TwoWeeks.week1_posting]);
        ("August 2024, Week 2", [unreachable_posting; plain_posting])]
       (exec (first_block TwoWeeks.outside "July 2024, Week 4" "July 2024, Week 3"
                          (seq 0 ntries)) initial_state)) /\
  laid_out 3
    (processing_order
       [("August 2024, Week 1", [TwoWeeks.week1_posting]);
        ("August 2024, Week 2", [unreachable_posting; plain_posting])]) 0
    (data_compilation
       (exec (script TwoWeeks.outside
                (map (fun c => [c])
                     ["July 2024, Week 3"; "July 2024, Week 4"; "July 2024, Week 4"]) 5)
             initial_state)) /\
  ids_follow_order
    (data_compilation
       (exec (script TwoWeeks.outside
                (map (fun c => [c])
                     ["July 2024, Week 3"; "July 2024, Week 4"; "July 2024, Week 4"]) 5)
             initial_state)).
Proof.
  apply (oldest_missing_first_then_document_order TwoWeeks.outside
           ["July 2024, Week 3"; "July 2024, Week 4"; "July 2024, Week 4"] []
           "July 2024, Week 3" "July 2024, Week 4" 5
           [("August 2024, Week 1", [TwoWeeks.week1_posting]);
            ("August 2024, Week 2", [unreachable_posting; plain_posting])]
           (exec (first_block TwoWeeks.outside "July 2024, Week 4" "July 2024, Week 3"
                              (seq 0 ntries)) initial_state)).
  - reflexivity.
  - vm_compute. reflexivity.
  - intros week rest H. discriminate.
Defined.

Lemma embedded_fetch_exhaustion_witness :
  exists st4,
    get_selenium_response TwoWeeks.no_rendering TwoWeeks.message_url st4 =
      (Raise (External (Fault "timeout")), set_clock (clock st4 + 3) st4) /\
    script TwoWeeks.no_rendering
           (map (fun c => [c])
                ["July 2024, Week 4"; "August 2024, Week 1"; "August 2024, Week 1"]) 5
           initial_state =
      (Raise (External (Fault "timeout")), set_clock (clock st4 + 3) st4) /\
    exit_code (outcome (script TwoWeeks.no_rendering
                          (map (fun c => [c])
                               ["July 2024, Week 4"; "August 2024, Week 1";
                                "August 2024, Week 1"]) 5) initial_state) = 1%Z /\
    data_compilation_urls_inside_messages
      (exec (script TwoWeeks.no_rendering
               (map (fun c => [c])
                    ["July 2024, Week 4"; "August 2024, Week 1"; "August 2024, Week 1"]) 5)
            initial_state) =
      data_compilation_urls_inside_messages st4 /\
    main TwoWeeks.no_rendering Storage.reliable
         (map (fun c => [c])
              ["July 2024, Week 4"; "August 2024, Week 1"; "August 2024, Week 1"]) 5 =
      (Raise (External (Fault "timeout")), set_clock (clock st4 + 3) st4,
       Storage.initial_store (clock st4 + 3)).
Proof.
  pose (mcd := [("August 2024, Week 2", [unreachable_posting; plain_posting])]).
  pose (st1 := exec (first_block TwoWeeks.no_rendering "August 2024, Week 1"
                                 "July 2024, Week 4" (seq 0 ntries)) initial_state).
  pose (st2 := exec (scrape_messages TwoWeeks.no_rendering 3 mcd) st1).
  exists st2.
  apply (embedded_fetch_exhaustion_is_fatal TwoWeeks.no_rendering Storage.reliable
           ["July 2024, Week 4"; "August 2024, Week 1"; "August 2024, Week 1"] []
           "July 2024, Week 4" "August 2024, Week 1" 5 mcd st1 st2
           (firstn 2 (data_compilation st2)) (nth 2 (data_compilation st2) []) []
           st2 (VStr ("text of " ++ TwoWeeks.message_url)) [] TwoWeeks.message_url []
           st2 (fun _ => Fault "timeout")).
  - reflexivity.
  - vm_compute. reflexivity.
  - vm_compute. reflexivity.
  - vm_compute. reflexivity.
  - vm_compute. reflexivity.
  - vm_compute. reflexivity.
  - vm_compute. reflexivity.
  - reflexivity.
  - vm_compute. lia.
  - intros k Hk. reflexivity.
Defined.

